(** * rdb2json_conversations: the exporter and the conversation filter

    A shallow embedding of [rdb_to_json.py] and [dump_to_conversations.py].

    - Python [bytes] are [list byte]; a Python [str] is the list of its code
      points ([pystr]); Python [int]s are [Z].
    - JSON-serialisable Python values (what [json.dump] receives and what
      [json.load] returns) are the inductive [json]; a [dict] is an
      association list in insertion order with unique keys.
    - A call that may raise returns [res A]: [Ok a] or [Raise e].
    - The Redis client is a record of reply functions; the operating system
      (files, the server process, the clock) is a record of outcomes, and
      [export_rdb_to_json] threads an explicit state that logs every effect.
*)

From Stdlib Require Import List Bool Arith ZArith NArith Lia String Ascii.
From Stdlib Require Import Strings.Byte DecimalString.
From Stdlib Require Import Sorting.Permutation Sorting.Sorted.
Import ListNotations.

Local Open Scope N_scope.

(** Division and remainder by constants are handed to [lia] as their
    Euclidean equations. *)
Ltac Zify.zify_post_hook ::= Z.to_euclidean_division_equations.

(* ================================================================== *)
(** ** Python values *)

Definition bytes := list byte.
Definition pystr := list N.

(** An ASCII literal of the source as a Python [str]. *)
Definition lit (s : string) : pystr :=
  map N_of_ascii (list_ascii_of_string s).

Fixpoint pystr_eqb (a b : pystr) : bool :=
  match a, b with
  | [], [] => true
  | x :: a', y :: b' => (x =? y) && pystr_eqb a' b'
  | _, _ => false
  end.

Definition bval (b : byte) : N := Byte.to_N b.

Definition mkbyte (n : N) : byte :=
  match Byte.of_N n with
  | Some b => b
  | None => x00
  end.

(** Exceptions: the class that [except] clauses test, and [str(e)].  Only
    subclasses of [Exception] are modelled, so [except Exception] catches
    every [exn]; asynchronous interrupts are outside the model. *)
Inductive pyclass :=
| UnicodeDecodeError
| ValueError
| AttributeError
| FileNotFoundError
| RuntimeError
| TimeoutExpired
| OtherException (name : string).

Record exn := mkExn { exn_class : pyclass; exn_msg : pystr }.

Inductive res (A : Type) :=
| Ok (a : A)
| Raise (e : exn).
Arguments Ok {A} a.
Arguments Raise {A} e.

Definition bind {A B} (m : res A) (k : A -> res B) : res B :=
  match m with
  | Ok a => k a
  | Raise e => Raise e
  end.

Notation "x <- m ;; k" := (bind m (fun x => k))
  (at level 61, m at next level, right associativity).

Fixpoint mapM {A B} (f : A -> res B) (l : list A) : res (list B) :=
  match l with
  | [] => Ok []
  | x :: t => y <- f x ;; ys <- mapM f t ;; Ok (y :: ys)
  end.

Definition is_UnicodeDecodeError (e : exn) : bool :=
  match exn_class e with
  | UnicodeDecodeError => true
  | _ => false
  end.

(** JSON-serialisable values.  A float is carried as its IEEE-754 bit
    pattern: neither program computes with one. *)
#[warnings="-register-all"]
Inductive json :=
| JNull
| JBool (b : bool)
| JInt (z : Z)
| JFloat (bits : Z)
| JStr (s : pystr)
| JArr (l : list json)
| JObj (d : list (pystr * json)).

(** [d.get(k)] and [d[k] = v] on an insertion-ordered dict. *)
Fixpoint dict_get (d : list (pystr * json)) (k : pystr) : option json :=
  match d with
  | [] => None
  | (k', v) :: t => if pystr_eqb k' k then Some v else dict_get t k
  end.

Fixpoint dict_set (d : list (pystr * json)) (k : pystr) (v : json)
  : list (pystr * json) :=
  match d with
  | [] => [(k, v)]
  | (k', v') :: t =>
      if pystr_eqb k' k then (k', v) :: t else (k', v') :: dict_set t k v
  end.

Definition dict_has (d : list (pystr * json)) (k : pystr) : bool :=
  match dict_get d k with
  | Some _ => true
  | None => false
  end.

(* ================================================================== *)
(** ** [base64.b64encode] and its inverse (RFC 4648, standard alphabet) *)

Module Base64.

Definition alphabet (n : N) : N :=
  if n <? 26 then n + 65
  else if n <? 52 then n + 71
  else if n <? 62 then n - 4
  else if n =? 62 then 43
  else 47.

Definition pad : N := 61.

Definition sextet (c : N) : option N :=
  if (65 <=? c) && (c <=? 90) then Some (c - 65)
  else if (97 <=? c) && (c <=? 122) then Some (c - 71)
  else if (48 <=? c) && (c <=? 57) then Some (c + 4)
  else if c =? 43 then Some 62
  else if c =? 47 then Some 63
  else None.

Definition quad (c0 c1 c2 c3 : N) : bytes :=
  [mkbyte c0; mkbyte c1; mkbyte c2; mkbyte c3].

Fixpoint b64encode (data : bytes) : bytes :=
  match data with
  | [] => []
  | [a] =>
      quad (alphabet (bval a / 4)) (alphabet (bval a mod 4 * 16)) pad pad
  | [a; b] =>
      quad (alphabet (bval a / 4))
           (alphabet (bval a mod 4 * 16 + bval b / 16))
           (alphabet (bval b mod 16 * 4)) pad
  | a :: b :: c :: rest =>
      quad (alphabet (bval a / 4))
           (alphabet (bval a mod 4 * 16 + bval b / 16))
           (alphabet (bval b mod 16 * 4 + bval c / 64))
           (alphabet (bval c mod 64))
      ++ b64encode rest
  end.

(** Strict decoding of a padded base64 text given as code points. *)
Fixpoint b64decode (s : pystr) : option bytes :=
  match s with
  | [] => Some []
  | c0 :: c1 :: c2 :: c3 :: rest =>
      match sextet c0, sextet c1 with
      | Some v0, Some v1 =>
          let b0 := mkbyte (v0 * 4 + v1 / 16) in
          if c2 =? pad then
            match rest with
            | [] => if (c3 =? pad) && (v1 mod 16 =? 0) then Some [b0] else None
            | _ :: _ => None
            end
          else
            match sextet c2 with
            | Some v2 =>
                let b1 := mkbyte (v1 mod 16 * 16 + v2 / 4) in
                if c3 =? pad then
                  match rest with
                  | [] => if v2 mod 4 =? 0 then Some [b0; b1] else None
                  | _ :: _ => None
                  end
                else
                  match sextet c3 with
                  | Some v3 =>
                      let b2 := mkbyte (v2 mod 4 * 64 + v3) in
                      match b64decode rest with
                      | Some t => Some (b0 :: b1 :: b2 :: t)
                      | None => None
                      end
                  | None => None
                  end
            | None => None
            end
      | _, _ => None
      end
  | _ => None
  end.

End Base64.

(** [bytes.decode("ascii")]. *)
Definition decode_ascii (b : bytes) : res pystr :=
  if forallb (fun x => bval x <? 128) b then Ok (map bval b)
  else Raise (mkExn UnicodeDecodeError (lit "'ascii' codec can't decode byte")).

(* ================================================================== *)
(** ** The UTF-8 codec: [bytes.decode("utf-8")] and [str.encode("utf-8")] *)

Module Utf8.

Definition is_cont (n : N) : bool := (0x80 <=? n) && (n <=? 0xBF).

Definition in_range (lo hi n : N) : bool := (lo <=? n) && (n <=? hi).

(** Bounds on the second byte, by lead byte (Unicode table 3-7). *)
Definition lo3 (n0 : N) : N := if n0 =? 0xE0 then 0xA0 else 0x80.
Definition hi3 (n0 : N) : N := if n0 =? 0xED then 0x9F else 0xBF.
Definition lo4 (n0 : N) : N := if n0 =? 0xF0 then 0x90 else 0x80.
Definition hi4 (n0 : N) : N := if n0 =? 0xF4 then 0x8F else 0xBF.

Definition cons_opt (c : N) (r : option pystr) : option pystr :=
  match r with
  | Some s => Some (c :: s)
  | None => None
  end.

(** Strict decoding: [None] stands for [UnicodeDecodeError]. *)
Fixpoint decode (data : bytes) : option pystr :=
  match data with
  | [] => Some []
  | b0 :: t0 =>
      let n0 := bval b0 in
      if n0 <? 0x80 then cons_opt n0 (decode t0)
      else if n0 <? 0xC2 then None
      else if n0 <? 0xE0 then
        match t0 with
        | b1 :: t1 =>
            let n1 := bval b1 in
            if is_cont n1
            then cons_opt ((n0 - 0xC0) * 64 + (n1 - 0x80)) (decode t1)
            else None
        | _ => None
        end
      else if n0 <? 0xF0 then
        match t0 with
        | b1 :: b2 :: t2 =>
            let n1 := bval b1 in
            let n2 := bval b2 in
            if in_range (lo3 n0) (hi3 n0) n1 && is_cont n2
            then cons_opt ((n0 - 0xE0) * 4096 + (n1 - 0x80) * 64 + (n2 - 0x80))
                          (decode t2)
            else None
        | _ => None
        end
      else if n0 <? 0xF5 then
        match t0 with
        | b1 :: b2 :: b3 :: t3 =>
            let n1 := bval b1 in
            let n2 := bval b2 in
            let n3 := bval b3 in
            if in_range (lo4 n0) (hi4 n0) n1 && is_cont n2 && is_cont n3
            then cons_opt ((n0 - 0xF0) * 262144 + (n1 - 0x80) * 4096
                           + (n2 - 0x80) * 64 + (n3 - 0x80))
                          (decode t3)
            else None
        | _ => None
        end
      else None
  end.

(** A code point that UTF-8 can carry: a Unicode scalar value. *)
Definition is_scalar (c : N) : bool :=
  (c <? 0xD800) || ((0xE000 <=? c) && (c <? 0x110000)).

Definition encode_cp (c : N) : bytes :=
  if c <? 0x80 then [mkbyte c]
  else if c <? 0x800 then [mkbyte (0xC0 + c / 64); mkbyte (0x80 + c mod 64)]
  else if c <? 0x10000 then
    [mkbyte (0xE0 + c / 4096); mkbyte (0x80 + c / 64 mod 64);
     mkbyte (0x80 + c mod 64)]
  else
    [mkbyte (0xF0 + c / 262144); mkbyte (0x80 + c / 4096 mod 64);
     mkbyte (0x80 + c / 64 mod 64); mkbyte (0x80 + c mod 64)].

(** Strict encoding: [None] stands for [UnicodeEncodeError] (a surrogate or
    a value past U+10FFFF). *)
Fixpoint encode (s : pystr) : option bytes :=
  match s with
  | [] => Some []
  | c :: t =>
      if is_scalar c then
        match encode t with
        | Some r => Some (encode_cp c ++ r)
        | None => None
        end
      else None
  end.

End Utf8.

Definition decode_utf8 (data : bytes) : res pystr :=
  match Utf8.decode data with
  | Some s => Ok s
  | None =>
      Raise (mkExn UnicodeDecodeError (lit "'utf-8' codec can't decode bytes"))
  end.

(* ================================================================== *)
(** ** rdb_to_json.py: the byte encoders *)

Definition _b64 (data : bytes) : res pystr :=
  decode_ascii (Base64.b64encode data).

Definition encoded (enc : string) (data : json) : json :=
  JObj [(lit "encoding", JStr (lit enc)); (lit "data", data)].

Definition _encode_bytes (data : option bytes) : res json :=
  match data with
  | None => Ok JNull
  | Some d =>
      match decode_utf8 d with
      | Ok s => Ok (encoded "utf-8" (JStr s))
      | Raise e =>
          if is_UnicodeDecodeError e
          then s <- _b64 d ;; Ok (encoded "base64" (JStr s))
          else Raise e
      end
  end.

(** [_encode_bytes(key) or {...}]: a dict is falsy only when it is empty,
    [None] always. *)
Definition py_truthy (v : json) : bool :=
  match v with
  | JNull => false
  | JBool b => b
  | JInt z => negb (Z.eqb z 0)
  | JFloat _ => true
  | JStr s => negb (pystr_eqb s [])
  | JArr l => match l with [] => false | _ => true end
  | JObj d => match d with [] => false | _ => true end
  end.

Definition _encode_key (key : bytes) : res json :=
  v <- _encode_bytes (Some key) ;;
  Ok (if py_truthy v then v else encoded "base64" (JStr [])).

(** What a stream entry id may be when it reaches [_encode_scalar]. *)
Inductive scalar :=
| SNone
| SBytes (b : bytes)
| SStr (s : pystr)
| SInt (z : Z)
| SFloat (bits : Z)
| SBool (b : bool)
| SOther (str_of : pystr).

Definition _encode_scalar (v : scalar) : res json :=
  match v with
  | SNone => Ok JNull
  | SBytes b => _encode_bytes (Some b)
  | SStr s => Ok (JStr s)
  | SInt z => Ok (JInt z)
  | SFloat f => Ok (JFloat f)
  | SBool b => Ok (JBool b)
  | SOther s => Ok (JStr s)
  end.

(* ================================================================== *)
(** ** Library functions taken as parameters, and the Redis client *)

(** Functions of the Python runtime that the programs call and whose
    definition plays no part in what is proved. *)
Record PyLib := {
  decode_replace : bytes -> pystr;   (* bytes.decode("utf-8", errors="replace") *)
  str_strip : pystr -> pystr;        (* str.strip() *)
  py_int : pystr -> res Z;           (* int(s), ValueError on failure *)
  json_loads : pystr -> res json     (* json.loads(s) *)
}.

(** [r.type(key)] answers [bytes] (the client is opened with
    [decode_responses=False]); anything else goes through [str()]. *)
Inductive type_reply :=
| TypeBytes (b : bytes)
| TypeOther (str_of : pystr).

(** The replies of the selected database to the commands the exporter
    sends.  Sequences are given in the order Python iterates them. *)
Record Redis := {
  r_type : bytes -> res type_reply;
  r_pttl : bytes -> res Z;
  r_get : bytes -> res (option bytes);
  r_hgetall : bytes -> res (list (bytes * bytes));
  r_lrange : bytes -> res (list bytes);
  r_smembers : bytes -> res (list bytes);
  r_zrange : bytes -> res (list (bytes * Z));
  r_xrange : bytes -> res (list (scalar * list (bytes * bytes)));
  r_dump : bytes -> res (option bytes)
}.

(* ================================================================== *)
(** ** [list.sort()] on byte strings *)

(** [a <= b] on Python [bytes]: lexicographic on unsigned byte values, a
    proper prefix first. *)
Fixpoint bytes_leb (a b : bytes) : bool :=
  match a, b with
  | [], _ => true
  | _ :: _, [] => false
  | x :: a', y :: b' =>
      if bval x <? bval y then true
      else if bval y <? bval x then false
      else bytes_leb a' b'
  end.

Section Sort.
Context {A : Type} (leb : A -> A -> bool).

Fixpoint insert_sorted (x : A) (l : list A) : list A :=
  match l with
  | [] => [x]
  | y :: t => if leb x y then x :: l else y :: insert_sorted x t
  end.

Fixpoint py_sort (l : list A) : list A :=
  match l with
  | [] => []
  | x :: t => insert_sorted x (py_sort t)
  end.
End Sort.

(* ================================================================== *)
(** ** rdb_to_json.py: [_read_key_entry] *)

Definition field_pair (fv : bytes * bytes) : res json :=
  f <- _encode_bytes (Some (fst fv)) ;;
  v <- _encode_bytes (Some (snd fv)) ;;
  Ok (JObj [(lit "field", f); (lit "value", v)]).

Definition member_score (ms : bytes * Z) : res json :=
  m <- _encode_bytes (Some (fst ms)) ;;
  Ok (JObj [(lit "member", m); (lit "score", JFloat (snd ms))]).

(** [str(n)] for an int. *)
Definition str_of_Z (z : Z) : pystr :=
  lit (DecimalString.NilZero.string_of_int (Z.to_int z)).

(** What [f, v = k] raises when [k] does not hold exactly two items (the
    wording of CPython 3.8 to 3.13). *)
Definition unpack_error (n : nat) : exn :=
  mkExn ValueError
        (if (n <? 2)%nat
         then lit "not enough values to unpack (expected 2, got "
              ++ str_of_Z (Z.of_nat n) ++ lit ")"
         else lit "too many values to unpack (expected 2)").

(** [f, v = k] for a byte string [k]: its items are ints. *)
Definition unpack_pair (k : bytes) : res (Z * Z) :=
  match k with
  | [a; b] => Ok (Z.of_N (bval a), Z.of_N (bval b))
  | _ => Raise (unpack_error (List.length k))
  end.

(** [_encode_bytes] called on an int: [data.decode] does not exist, and
    [AttributeError] is not what the function catches. *)
Definition _encode_bytes_int (n : Z) : res json :=
  Raise (mkExn AttributeError (lit "'int' object has no attribute 'decode'")).

(** One turn of [for f, v in fields].  The client returns the fields of a
    stream entry as a dict, so the loop walks its keys, and each key is
    what gets unpacked into [f] and [v]. *)
Definition field_pair_of_key (k : bytes) : res json :=
  fv <- unpack_pair k ;;
  f <- _encode_bytes_int (fst fv) ;;
  v <- _encode_bytes_int (snd fv) ;;
  Ok (JObj [(lit "field", f); (lit "value", v)]).

(** One element of the [XRANGE] reply: the id and the dict of fields, the
    dict given as its items in insertion order. *)
Definition stream_item (it : scalar * list (bytes * bytes)) : res json :=
  i <- _encode_scalar (fst it) ;;
  fs <- mapM (fun kv => field_pair_of_key (fst kv)) (snd it) ;;
  Ok (JObj [(lit "id", i); (lit "fields", JArr fs)]).

Definition encode_list (vals : list bytes) : res json :=
  l <- mapM (fun v => _encode_bytes (Some v)) vals ;; Ok (JArr l).

Definition is_type (key_type_str : pystr) (name : string) : bool :=
  pystr_eqb key_type_str (lit name).

(** The body of the [try] block: the right-hand side assigned to
    [entry["value"]]. *)
Definition read_value (r : Redis) (key : bytes) (key_type_str : pystr)
  : res json :=
  if is_type key_type_str "string" then
    v <- r_get r key ;; _encode_bytes v
  else if is_type key_type_str "hash" then
    m <- r_hgetall r key ;; l <- mapM field_pair m ;; Ok (JArr l)
  else if is_type key_type_str "list" then
    vals <- r_lrange r key ;; encode_list vals
  else if is_type key_type_str "set" then
    vals <- r_smembers r key ;; encode_list (py_sort bytes_leb vals)
  else if is_type key_type_str "zset" then
    vals <- r_zrange r key ;; l <- mapM member_score vals ;; Ok (JArr l)
  else if is_type key_type_str "stream" then
    items <- r_xrange r key ;; l <- mapM stream_item items ;; Ok (JArr l)
  else
    payload <- r_dump r key ;;
    d <- match payload with
         | Some p => s <- _b64 p ;; Ok (JStr s)
         | None => Ok JNull
         end ;;
    Ok (JObj [(lit "encoding", JStr (lit "redis-dump-base64"));
              (lit "data", d)]).

Definition key_type_str_of (py : PyLib) (t : type_reply) : pystr :=
  match t with
  | TypeBytes b => decode_replace py b
  | TypeOther s => s
  end.

Definition ttl_ms_of (reply : res Z) : json :=
  match reply with
  | Ok pttl => if (pttl <? 0)%Z then JNull else JInt pttl
  | Raise _ => JNull
  end.

Definition _read_key_entry (py : PyLib) (r : Redis) (key : bytes) : res json :=
  key_type <- r_type r key ;;
  let key_type_str := key_type_str_of py key_type in
  let ttl_ms := ttl_ms_of (r_pttl r key) in
  k <- _encode_key key ;;
  let entry := [(lit "key", k);
                (lit "type", JStr key_type_str);
                (lit "ttl_ms", ttl_ms)] in
  match read_value r key key_type_str with
  | Ok v => Ok (JObj (dict_set entry (lit "value") v))
  | Raise e => Ok (JObj (dict_set entry (lit "error") (JStr (exn_msg e))))
  end.

(* ================================================================== *)
(** ** The world of one export call *)

(** The replies to the successive [SCAN] calls of one traversal: every
    reply but the last carries a non-zero cursor. *)
Inductive scan_script :=
| ScanLast (batch : list bytes)
| ScanNext (cursor : positive) (batch : list bytes) (rest : scan_script)
| ScanFail (e : exn).

Inductive info_key :=
| InfoStr (s : pystr)
| InfoOther.

(** The server behind the client: [srv_db i] and [srv_scan i] are what the
    connection sees once database [i] is selected. *)
Record Server := {
  srv_info : res (list info_key);
  srv_select : Z -> res unit;
  srv_scan : Z -> scan_script;
  srv_db : Z -> Redis
}.

(** Outcomes of the operating-system calls of one export, each made at
    most once except the liveness probes: [os_pings] lists the replies of
    the probes that start before the 20-second deadline.  Reading the
    pipes of the server returns only once the server has closed them:
    [os_read_streams] is [None] when that never happens. *)
Record OS := {
  os_rdb_path : pystr;
  os_redis_server : pystr;
  os_exists : bool;
  os_pick_port : res Z;
  os_run_version : res pystr;
  os_mkdtemp : res pystr;
  os_copy2 : res unit;
  os_popen : res unit;
  os_pings : list (res bool);
  os_poll_diag : res (option Z);
  os_read_streams : option (res (pystr * pystr));   (* stderr, stdout *)
  os_abspath : pystr;
  os_now : pystr;
  os_write : res unit;
  os_poll : res (option Z);
  os_terminate : res unit;
  os_wait : res Z;
  os_kill : res unit;
  os_rmtree : res unit;
  os_server : Server
}.

Inductive event :=
| EvExists
| EvPickPort
| EvVersion
| EvMkdtemp
| EvCopy
| EvPopen
| EvPing
| EvSleep
| EvPoll
| EvReadStreams
| EvQuery
| EvWrite
| EvTerminate
| EvWait (timeout_s : Z)
| EvKill
| EvRmtree.

Inductive proc_state := NotSpawned | Running | Exited.

Record st := mkSt {
  trace : list event;
  proc : proc_state;
  tmp_exists : bool;
  written : option json
}.

Definition st0 : st := mkSt [] NotSpawned false None.

(** State and exceptions. *)
Definition M (A : Type) : Type := st -> st * res A.

Definition ret {A} (a : A) : M A := fun s => (s, Ok a).

Definition raiseM {A} (e : exn) : M A := fun s => (s, Raise e).

Definition bindM {A B} (m : M A) (k : A -> M B) : M B :=
  fun s =>
    match m s with
    | (s', Ok a) => k a s'
    | (s', Raise e) => (s', Raise e)
    end.

Notation "x <~ m ;; k" := (bindM m (fun x => k))
  (at level 61, m at next level, right associativity).
Notation "m ;;; k" := (bindM m (fun _ => k))
  (at level 61, right associativity).

Definition liftR {A} (r : res A) : M A := fun s => (s, r).

Definition emit (e : event) : M unit :=
  fun s => (mkSt (trace s ++ [e]) (proc s) (tmp_exists s) (written s), Ok tt).

Definition set_proc (p : proc_state) : M unit :=
  fun s => (mkSt (trace s) p (tmp_exists s) (written s), Ok tt).

Definition set_tmp (b : bool) : M unit :=
  fun s => (mkSt (trace s) (proc s) b (written s), Ok tt).

Definition set_written (d : json) : M unit :=
  fun s => (mkSt (trace s) (proc s) (tmp_exists s) (Some d), Ok tt).

(** [try: m except Exception as e: h e]. *)
Definition try_except {A} (m : M A) (h : exn -> M A) : M A :=
  fun s =>
    match m s with
    | (s', Ok a) => (s', Ok a)
    | (s', Raise e) => h e s'
    end.

(** Code that may also never return.  [None] is a call that blocks for
    ever: nothing runs after it, no handler and no [finally]. *)
Definition MB (A : Type) : Type := st -> st * option (res A).

Definition liftM {A} (m : M A) : MB A :=
  fun s => match m s with (s', r) => (s', Some r) end.

Definition liftO {A} (o : option (res A)) : MB A := fun s => (s, o).

Definition bindB {A B} (m : MB A) (k : A -> MB B) : MB B :=
  fun s =>
    match m s with
    | (s', Some (Ok a)) => k a s'
    | (s', Some (Raise e)) => (s', Some (Raise e))
    | (s', None) => (s', None)
    end.

Notation "x <~~ m ;; k" := (bindB m (fun x => k))
  (at level 61, m at next level, right associativity).
Notation "m ;;> k" := (bindB m (fun _ => k))
  (at level 61, right associativity).

(** [try: m except Exception as e: h e], for code that may block. *)
Definition try_except_b {A} (m : MB A) (h : exn -> MB A) : MB A :=
  fun s =>
    match m s with
    | (s', Some (Ok a)) => (s', Some (Ok a))
    | (s', Some (Raise e)) => h e s'
    | (s', None) => (s', None)
    end.

(** [try: m finally: fin]: [fin] runs whenever [m] returns or raises;
    what [fin] raises wins. *)
Definition try_finally {A} (m : MB A) (fin : M unit) : MB A :=
  fun s =>
    match m s with
    | (s', Some r) =>
        match fin s' with
        | (s'', Ok _) => (s'', Some r)
        | (s'', Raise e) => (s'', Some (Raise e))
        end
    | (s', None) => (s', None)
    end.

(** [with tempfile.TemporaryDirectory(...) as tmp: body].  Leaving the
    block removes the directory; a removal that fails raises from the
    [with] statement in place of whatever the body did, and leaves the
    directory behind. *)
Definition with_tempdir {A} (mk : res pystr) (rm : res unit)
  (body : pystr -> MB A) : MB A :=
  liftM (emit EvMkdtemp) ;;>
  tmp <~~ liftM (liftR mk) ;;
  liftM (set_tmp true) ;;>
  try_finally (body tmp) (emit EvRmtree ;;; liftR rm ;;; set_tmp false).

(* ================================================================== *)
(** ** rdb_to_json.py: the process supervisor *)

Definition _redis_server_version (py : PyLib) (os : OS) : M (option pystr) :=
  emit EvVersion ;;;
  match os_run_version os with
  | Ok out =>
      let v := str_strip py out in
      ret (if pystr_eqb v [] then None else Some v)
  | Raise e =>
      match exn_class e with
      | FileNotFoundError => ret None
      | _ => raiseM e
      end
  end.

Definition _start_redis_for_rdb (os : OS) : M unit :=
  emit EvCopy ;;;
  liftR (os_copy2 os) ;;;
  emit EvPopen ;;;
  liftR (os_popen os) ;;;
  set_proc Running.

Definition str_of_exn_opt (e : option exn) : pystr :=
  match e with
  | Some x => exn_msg x
  | None => lit "None"
  end.

(** The probe loop: one iteration per reply of [os_pings]; when they are
    used up the deadline has passed. *)
Fixpoint ready_loop (pings : list (res bool)) (last_err : option exn) : M unit :=
  match pings with
  | [] =>
      raiseM (mkExn RuntimeError
                (lit "Redis did not become ready in 20.0s. Last error: "
                 ++ str_of_exn_opt last_err))
  | p :: rest =>
      emit EvPing ;;;
      match p with
      | Ok true => ret tt
      | Ok false => emit EvSleep ;;; ready_loop rest last_err
      | Raise e => emit EvSleep ;;; ready_loop rest (Some e)
      end
  end.

Definition _wait_for_redis_ready (os : OS) : M unit :=
  ready_loop (os_pings os) None.

Definition poll (reply : res (option Z)) : M (option Z) :=
  emit EvPoll ;;;
  c <~ liftR reply ;;
  match c with
  | Some _ => set_proc Exited ;;; ret c
  | None => ret c
  end.

Definition terminate (os : OS) : M unit :=
  emit EvTerminate ;;; liftR (os_terminate os).

Definition wait (os : OS) (timeout_s : Z) : M unit :=
  emit (EvWait timeout_s) ;;;
  liftR (os_wait os) ;;;
  set_proc Exited.

Definition kill (os : OS) : M unit :=
  emit EvKill ;;;
  liftR (os_kill os) ;;;
  set_proc Exited.

(** The [finally] block of [export_rdb_to_json]. *)
Definition teardown (os : OS) : M unit :=
  try_except
    (c <~ poll (os_poll os) ;;
     match c with
     | None => terminate os ;;; wait os 5
     | Some _ => ret tt
     end)
    (fun _ => try_except (kill os) (fun _ => ret tt)).

(* ================================================================== *)
(** ** rdb_to_json.py: key enumeration and the export *)

Definition starts_with (prefix s : pystr) : bool :=
  pystr_eqb (firstn (List.length prefix) s) prefix.

Definition is_ValueError (e : exn) : bool :=
  match exn_class e with
  | ValueError => true
  | _ => false
  end.

(** One turn of the loop over [info.keys()]. *)
Definition collect_key (py : PyLib) (dbs : list Z) (k : info_key)
  : res (list Z) :=
  match k with
  | InfoStr s =>
      if starts_with (lit "db") s then
        match py_int py (skipn 2 s) with
        | Ok n => Ok (dbs ++ [n])
        | Raise e => if is_ValueError e then Ok dbs else Raise e
        end
      else Ok dbs
  | InfoOther => Ok dbs
  end.

Fixpoint collect_keys (py : PyLib) (dbs : list Z) (ks : list info_key)
  : res (list Z) :=
  match ks with
  | [] => Ok dbs
  | k :: t => dbs' <- collect_key py dbs k ;; collect_keys py dbs' t
  end.

(** [sorted(set(dbs))]. *)
Definition sorted_set (dbs : list Z) : list Z :=
  py_sort Z.leb (nodup Z.eq_dec dbs).

Definition _collect_db_indexes (py : PyLib) (srv : Server) : list Z :=
  match (info <- srv_info srv ;; collect_keys py [] info) with
  | Ok dbs =>
      match sorted_set dbs with
      | [] => [0%Z]
      | l => l
      end
  | Raise _ => [0%Z]
  end.

Fixpoint _scan_keys (replies : scan_script) : res (list bytes) :=
  match replies with
  | ScanLast batch => Ok batch
  | ScanNext _ batch rest => keys <- _scan_keys rest ;; Ok (batch ++ keys)
  | ScanFail e => Raise e
  end.

(** The inner loop of the export: one record per scanned key, in scan
    order. *)
Definition read_entries (py : PyLib) (r : Redis) (keys : list bytes)
  : res (list json) :=
  mapM (_read_key_entry py r) keys.

(** One turn of the loop over [dbs]. *)
Definition export_db (py : PyLib) (srv : Server) (db : list (pystr * json))
  (dbi : Z) : res (list (pystr * json)) :=
  _ <- srv_select srv dbi ;;
  keys <- _scan_keys (srv_scan srv dbi) ;;
  entries <- read_entries py (srv_db srv dbi) keys ;;
  Ok (dict_set db (str_of_Z dbi) (JObj [(lit "entries", JArr entries)])).

Fixpoint export_dbs (py : PyLib) (srv : Server) (db : list (pystr * json))
  (dbs : list Z) : res (list (pystr * json)) :=
  match dbs with
  | [] => Ok db
  | dbi :: t => db' <- export_db py srv db dbi ;; export_dbs py srv db' t
  end.

Definition nl : pystr := [10].
Definition dquote : pystr := [34].

Definition could_not_run (redis_server : pystr) : pystr :=
  lit "Could not run redis-server at '" ++ redis_server ++ lit "'. "
  ++ lit "Install Redis or pass --redis-server /path/to/redis-server".

Definition failed_to_start (redis_ver out err : pystr) : pystr :=
  lit "Failed to start redis-server or load the RDB." ++ nl ++ nl
  ++ lit "redis-server --version:" ++ nl ++ redis_ver ++ nl ++ nl
  ++ lit "redis-server output:" ++ nl
  ++ out ++ err ++ nl ++ nl
  ++ lit "If you see something like " ++ dquote
  ++ lit "Can't handle RDB format version X" ++ dquote ++ lit ", "
  ++ lit "you need a newer redis-server to load this dump.".

(** The handler of a failed readiness wait: poll the process, read all of
    its stderr and stdout (which blocks until the process has closed
    them), then raise the start-up failure. *)
Definition startup_failure (os : OS) (redis_ver : pystr) : MB unit :=
  oe <~~ try_except_b
           (liftM (poll (os_poll_diag os)) ;;>
            liftM (emit EvReadStreams) ;;>
            liftO (os_read_streams os))
           (fun _ => liftM (ret ([], []))) ;;
  liftM (raiseM (mkExn RuntimeError
                   (failed_to_start redis_ver (snd oe) (fst oe)))).

(** What follows the readiness wait inside the [try]. *)
Definition export_work (py : PyLib) (os : OS) (redis_ver : pystr) : M unit :=
  let meta := JObj [(lit "source_rdb", JStr (os_abspath os));
                    (lit "exported_at_utc", JStr (os_now os));
                    (lit "redis_server_version", JStr redis_ver)] in
  emit EvQuery ;;;
  let dbs := _collect_db_indexes py (os_server os) in
  db <~ liftR (export_dbs py (os_server os) [] dbs) ;;
  let result := JObj [(lit "meta", meta); (lit "db", JObj db)] in
  emit EvWrite ;;;
  liftR (os_write os) ;;;
  set_written result.

Definition export_body (py : PyLib) (os : OS) (redis_ver : pystr) : MB unit :=
  try_except_b (liftM (_wait_for_redis_ready os))
               (fun _ => startup_failure os redis_ver) ;;>
  liftM (export_work py os redis_ver).

Definition export_rdb_to_json (py : PyLib) (os : OS) : MB unit :=
  liftM (emit EvExists) ;;>
  if negb (os_exists os)
  then liftM (raiseM (mkExn FileNotFoundError (os_rdb_path os)))
  else
    liftM (emit EvPickPort) ;;>
    liftM (liftR (os_pick_port os)) ;;>
    redis_ver <~~ liftM (_redis_server_version py os) ;;
    match redis_ver with
    | None =>
        liftM (raiseM (mkExn RuntimeError
                         (could_not_run (os_redis_server os))))
    | Some ver =>
        with_tempdir (os_mkdtemp os) (os_rmtree os)
          (fun _ =>
             liftM (_start_redis_for_rdb os) ;;>
             try_finally (export_body py os ver) (teardown os))
    end.

(* ================================================================== *)
(** ** dump_to_conversations.py *)

(** The fragment of Python's [re] that [_SESSION_KEY_RE] uses, matched the
    way [re.match] does: from the start of the string, greedy, with
    backtracking, no flags set. *)
Module Re.

Inductive atom :=
| Bol                 (* ^ : the start of the string *)
| Eol                 (* $ : the end, or just before a final newline *)
| Chr (c : N)         (* a literal character *)
| GroupAnyPlus.       (* (?P<name>.+) : one or more characters but newline *)

Definition newline : N := 10.

Definition at_eol (s : pystr) : bool :=
  match s with
  | [] => true
  | [c] => c =? newline
  | _ => false
  end.

(** One or more characters but newline, the longest run first, giving
    back one character at a time until the rest of the pattern, [k],
    matches; [acc] is what the group holds so far. *)
Fixpoint greedy (k : pystr -> option pystr -> option (option pystr))
  (s acc : pystr) : option (option pystr) :=
  match s with
  | x :: s' =>
      if x =? newline then None
      else
        match greedy k s' (acc ++ [x]) with
        | Some r => Some r
        | None => k s' (Some (acc ++ [x]))
        end
  | [] => None
  end.

(** [match_here p at_start s cap]: the group captured when [p] matches a
    prefix of [s]; [at_start] tells whether nothing was consumed yet. *)
Fixpoint match_here (p : list atom) (at_start : bool) (s : pystr)
  (cap : option pystr) {struct p} : option (option pystr) :=
  match p with
  | [] => Some cap
  | Bol :: p' => if at_start then match_here p' at_start s cap else None
  | Eol :: p' => if at_eol s then match_here p' at_start s cap else None
  | Chr c :: p' =>
      match s with
      | x :: s' => if x =? c then match_here p' false s' cap else None
      | [] => None
      end
  | GroupAnyPlus :: p' =>
      greedy (fun s' cap' => match_here p' false s' cap') s []
  end.

(** The rest of the pattern after the group of [_SESSION_KEY_RE]. *)
Definition k_eol : pystr -> option pystr -> option (option pystr) :=
  fun s' cap' => match_here [Eol] false s' cap'.

(** [m = pattern.match(s)] followed by [m.group(name)]; [None] when there
    is no match. *)
Definition match_group (p : list atom) (s : pystr) : option pystr :=
  match match_here p true s None with
  | Some (Some g) => Some g
  | _ => None
  end.

End Re.

Definition session_prefix : pystr := lit "chat:session_".

(** [re.compile(r"^chat:session_(?P<sid>.+)$")]. *)
Definition _SESSION_KEY_RE : list Re.atom :=
  [Re.Bol] ++ map Re.Chr session_prefix ++ [Re.GroupAnyPlus; Re.Eol].

Definition is_str (v : option json) (s : string) : bool :=
  match v with
  | Some (JStr x) => pystr_eqb x (lit s)
  | _ => false
  end.

Definition _get_key_string (entry : list (pystr * json)) : option pystr :=
  match dict_get entry (lit "key") with
  | Some (JObj k) =>
      let enc := dict_get k (lit "encoding") in
      match dict_get k (lit "data") with
      | Some (JStr data) =>
          if is_str enc "utf-8" then Some data
          else if is_str enc "base64" then Some (lit "base64:" ++ data)
          else None
      | _ => None
      end
  | Some (JStr k) => Some k
  | _ => None
  end.

Definition _get_utf8_value_string (entry : list (pystr * json))
  : option pystr :=
  match dict_get entry (lit "value") with
  | Some (JObj v) =>
      let enc := dict_get v (lit "encoding") in
      match dict_get v (lit "data") with
      | Some (JStr data) => if is_str enc "utf-8" then Some data else None
      | _ => None
      end
  | _ => None
  end.

Definition is_message (item : json) : bool :=
  match item with
  | JObj d => dict_has d (lit "role") && dict_has d (lit "content")
  | _ => false
  end.

Definition _looks_like_conversation (obj : json) : bool :=
  match obj with
  | JArr [] => false
  | JArr l =>
      let n := List.length (filter is_message (firstn 10 l)) in
      (1 <=? n)%nat
  | _ => false
  end.

(** What one turn of the loop over [entries] does with its entry. *)
Inductive verdict :=
| Skipped
| NotSessionKey
| ParsedFail
| NotConversation
| Emit (session_id : pystr) (conversation : json).

Definition classify (py : PyLib) (entry : json) : verdict :=
  match entry with
  | JObj e =>
      match _get_key_string e with
      | None => Skipped
      | Some [] => Skipped
      | Some key_str =>
          match Re.match_group _SESSION_KEY_RE key_str with
          | None => NotSessionKey
          | Some session_id =>
              match _get_utf8_value_string e with
              | None => Skipped
              | Some raw =>
                  match json_loads py raw with
                  | Raise _ => ParsedFail
                  | Ok parsed =>
                      if _looks_like_conversation parsed
                      then Emit session_id parsed
                      else NotConversation
                  end
              end
          end
      end
  | _ => Skipped
  end.

Record tally := mkTally {
  out : list json;
  skipped : nat;
  parsed_fail : nat;
  not_session_key : nat;
  not_conversation : nat
}.

Definition tally0 : tally := mkTally [] 0 0 0 0.

Definition step (py : PyLib) (t : tally) (entry : json) : tally :=
  match classify py entry with
  | Skipped =>
      mkTally (out t) (S (skipped t)) (parsed_fail t) (not_session_key t)
              (not_conversation t)
  | NotSessionKey =>
      mkTally (out t) (skipped t) (parsed_fail t) (S (not_session_key t))
              (not_conversation t)
  | ParsedFail =>
      mkTally (out t) (skipped t) (S (parsed_fail t)) (not_session_key t)
              (not_conversation t)
  | NotConversation =>
      mkTally (out t) (skipped t) (parsed_fail t) (not_session_key t)
              (S (not_conversation t))
  | Emit sid conv =>
      mkTally (out t ++ [JObj [(lit "session_id", JStr sid);
                               (lit "conversation", conv)]])
              (skipped t) (parsed_fail t) (not_session_key t)
              (not_conversation t)
  end.

(** [d.get(k, default)]; on anything but a dict the attribute is missing. *)
Definition get_default (d : json) (k : pystr) (default : json) : res json :=
  match d with
  | JObj o =>
      Ok (match dict_get o k with
          | Some v => v
          | None => default
          end)
  | _ => Raise (mkExn AttributeError (lit "object has no attribute 'get'"))
  end.

(** How [main] of the filter ends: an uncaught exception, [SystemExit] with
    a message, or the array written and the counters printed. *)
Inductive main_result :=
| Crashed (e : exn)
| Exited_with (msg : pystr)
| Wrote (t : tally).

Definition filter_main (py : PyLib) (doc : json) : main_result :=
  match (db <- get_default doc (lit "db") (JObj []) ;;
         db0 <- get_default db (lit "0") (JObj []) ;;
         get_default db0 (lit "entries") (JArr [])) with
  | Raise e => Crashed e
  | Ok (JArr entries) => Wrote (fold_left (step py) entries tally0)
  | Ok _ =>
      Exited_with
        (lit "Unexpected input: doc['db']['0']['entries'] is not a list")
  end.

(* ================================================================== *)
(** ** Notions the statements use *)

(** Reading an [EncodedBytes] object back: [data] decoded as its
    [encoding] says. *)
Definition decode_encoded (eb : json) : option bytes :=
  match eb with
  | JObj d =>
      match dict_get d (lit "data") with
      | Some (JStr data) =>
          if is_str (dict_get d (lit "encoding")) "utf-8"
          then Utf8.encode data
          else if is_str (dict_get d (lit "encoding")) "base64"
          then Base64.b64decode data
          else None
      | _ => None
      end
  | _ => None
  end.

Definition encoding_of (eb : json) : option json :=
  match eb with
  | JObj d => dict_get d (lit "encoding")
  | _ => None
  end.

(** Well-formed UTF-8: the encoding of some sequence of scalar values. *)
Definition valid_utf8 (b : bytes) : Prop :=
  exists s : pystr, Utf8.encode s = Some b.


(** The six type tags with a structural decoder. *)
Definition known_type (key_type_str : pystr) : bool :=
  is_type key_type_str "string" || is_type key_type_str "hash"
  || is_type key_type_str "list" || is_type key_type_str "set"
  || is_type key_type_str "zset" || is_type key_type_str "stream".

Definition bytes_le (a b : bytes) : Prop := bytes_leb a b = true.

(** [_encode_bytes] without the error plumbing. *)
Definition encoded_bytes (b : bytes) : json :=
  match Utf8.decode b with
  | Some s => encoded "utf-8" (JStr s)
  | None => encoded "base64" (JStr (map bval (Base64.b64encode b)))
  end.

(** The record [_read_key_entry] builds once the type is known. *)
Definition record_of (py : PyLib) (r : Redis) (key : bytes) (t : type_reply)
  : list (pystr * json) :=
  [(lit "key", encoded_bytes key);
   (lit "type", JStr (key_type_str_of py t));
   (lit "ttl_ms", ttl_ms_of (r_pttl r key));
   match read_value r key (key_type_str_of py t) with
   | Ok v => (lit "value", v)
   | Raise e => (lit "error", JStr (exn_msg e))
   end].

(** What the opaque fallback stores for a [DUMP] reply. *)
Definition dump_value (payload : option bytes) : json :=
  JObj [(lit "encoding", JStr (lit "redis-dump-base64"));
        (lit "data",
         match payload with
         | Some p => JStr (map bval (Base64.b64encode p))
         | None => JNull
         end)].

(** The events of the [finally] block, read off the outcomes: poll; when
    the process still runs, terminate and wait five seconds; kill when any
    of these fails. *)
Definition teardown_events (os : OS) : list event :=
  match os_poll os with
  | Ok (Some _) => [EvPoll]
  | Ok None =>
      match os_terminate os with
      | Ok _ =>
          match os_wait os with
          | Ok _ => [EvPoll; EvTerminate; EvWait 5]
          | Raise _ => [EvPoll; EvTerminate; EvWait 5; EvKill]
          end
      | Raise _ => [EvPoll; EvTerminate; EvKill]
      end
  | Raise _ => [EvPoll; EvKill]
  end.

(** The exception an export ends with, if any. *)
Definition failure_of (py : PyLib) (os : OS) : option exn :=
  match snd (export_rdb_to_json py os st0) with
  | Some (Raise e) => Some e
  | _ => None
  end.

(** The export comes to an end, normally or with an exception. *)
Definition returns (py : PyLib) (os : OS) : Prop :=
  snd (export_rdb_to_json py os st0) <> None.

Definition final_state (py : PyLib) (os : OS) : st :=
  fst (export_rdb_to_json py os st0).

(** The version probe cannot find the executable. *)
Definition binary_missing (os : OS) : Prop :=
  exists x, os_run_version os = Raise x /\ exn_class x = FileNotFoundError.

(** The start-up failure raised after a readiness timeout. *)
Definition is_startup_failure (e : exn) : Prop :=
  exists ver out err, e = mkExn RuntimeError (failed_to_start ver out err).

(** [doc["db"]["0"]["entries"]], when every step of the path is there. *)
Definition db0_entries (doc : json) : option (list json) :=
  match doc with
  | JObj d =>
      match dict_get d (lit "db") with
      | Some (JObj db) =>
          match dict_get db (lit "0") with
          | Some (JObj db0) =>
              match dict_get db0 (lit "entries") with
              | Some (JArr es) => Some es
              | _ => None
              end
          | _ => None
          end
      | _ => None
      end
  | _ => None
  end.

(** The value of a record is a UTF-8 [EncodedBytes] carrying [raw]. *)
Definition has_utf8_value (entry : list (pystr * json)) (raw : pystr) : Prop :=
  exists v,
    dict_get entry (lit "value") = Some (JObj v)
    /\ dict_get v (lit "encoding") = Some (JStr (lit "utf-8"))
    /\ dict_get v (lit "data") = Some (JStr raw).

(** A non-empty list with a role/content mapping among its first ten
    elements. *)
Definition conversation_shaped (conv : json) : Prop :=
  exists l,
    conv = JArr l /\ l <> []
    /\ exists i item,
         (i < 10)%nat /\ nth_error l i = Some (JObj item)
         /\ dict_has item (lit "role") = true
         /\ dict_has item (lit "content") = true.

(* ------------------------------------------------------------------ *)
(** *** The sentences of the specification that the code does not meet,
        word for word *)

(** Any exception while querying type, lifetime or value of a key ends up
    as that key's [error], with no [value], in a record that is returned. *)
Definition query_raises (py : PyLib) (r : Redis) (key : bytes) (e : exn)
  : Prop :=
  r_type r key = Raise e
  \/ r_pttl r key = Raise e
  \/ exists t, r_type r key = Ok t
               /\ read_value r key (key_type_str_of py t) = Raise e.

Definition failure_recorded (py : PyLib) (r : Redis) (key : bytes) (e : exn)
  : Prop :=
  exists d,
    _read_key_entry py r key = Ok (JObj d)
    /\ dict_get d (lit "error") = Some (JStr (exn_msg e))
    /\ dict_has d (lit "value") = false.

Definition stated_per_key_isolation : Prop :=
  forall py r key e, query_raises py r key e -> failure_recorded py r key e.

(** A key of unknown type carries [{encoding: "dump-base64", data: ...}]. *)
Definition stated_opaque_dump : Prop :=
  forall py r key t payload,
    r_type r key = Ok t ->
    known_type (key_type_str_of py t) = false ->
    r_dump r key = Ok (Some payload) ->
    exists d data,
      _read_key_entry py r key = Ok (JObj d)
      /\ dict_get d (lit "value")
         = Some (JObj [(lit "encoding", JStr (lit "dump-base64"));
                       (lit "data", JStr data)])
      /\ Base64.b64decode data = Some payload.

(** A pair is emitted exactly for a key [chat:session_<id>], the id being
    all that follows the prefix, with a conversation-shaped JSON value. *)
Definition stated_filter_rule : Prop :=
  forall py entry sid conv,
    classify py (JObj entry) = Emit sid conv
    <-> (sid <> []
         /\ _get_key_string entry = Some (session_prefix ++ sid)
         /\ exists raw,
              has_utf8_value entry raw
              /\ json_loads py raw = Ok conv
              /\ conversation_shaped conv).

(** [ttl_ms] is null exactly for "no expiry" (reply -1), and set only for
    a positive lifetime. *)
Definition stated_ttl_mapping : Prop :=
  forall py r key d,
    _read_key_entry py r key = Ok (JObj d) ->
    (dict_get d (lit "ttl_ms") = Some JNull <-> r_pttl r key = Ok (-1)%Z)
    /\ (forall p, dict_get d (lit "ttl_ms") = Some (JInt p) ->
                  r_pttl r key = Ok p /\ (0 < p)%Z).

(** A missing executable fails in a class of its own, apart from the
    start-up failure. *)
Definition stated_missing_binary_class : Prop :=
  forall py os os' e e',
    binary_missing os -> failure_of py os = Some e ->
    failure_of py os' = Some e' -> is_startup_failure e' ->
    exn_class e <> exn_class e'.


(* ------------------------------------------------------------------ *)
(** *** Sample runs

    A runtime, a database and a few worlds on which the statements are
    evaluated.  The runtime functions are right on the inputs used here:
    [decode_replace] on well-formed UTF-8, [py_int] on plain decimal
    digits, [json_loads] on the one text it knows. *)

Definition blit (s : string) : bytes :=
  map byte_of_ascii (list_ascii_of_string s).

Definition bytes_eqb (a b : bytes) : bool :=
  pystr_eqb (map bval a) (map bval b).

Fixpoint digits (s : pystr) (acc : Z) : option Z :=
  match s with
  | [] => Some acc
  | c :: t =>
      if (48 <=? c) && (c <=? 57)
      then digits t (acc * 10 + Z.of_N (c - 48))%Z
      else None
  end.

Definition bad_literal : exn := mkExn ValueError (lit "invalid literal").

(** The text [[{"role":"user","content":"hi"}]]. *)
Definition conv_text : pystr :=
  lit "[{" ++ dquote ++ lit "role" ++ dquote ++ lit ":" ++ dquote
  ++ lit "user" ++ dquote ++ lit "," ++ dquote ++ lit "content" ++ dquote
  ++ lit ":" ++ dquote ++ lit "hi" ++ dquote ++ lit "}]".

Definition conv_json : json :=
  JArr [JObj [(lit "role", JStr (lit "user"));
              (lit "content", JStr (lit "hi"))]].

Definition py0 : PyLib := {|
  decode_replace :=
    fun b => match Utf8.decode b with Some s => s | None => [0xFFFD] end;
  str_strip := fun s => s;
  py_int :=
    fun s =>
      match s with
      | [] => Raise bad_literal
      | _ => match digits s 0 with
             | Some z => Ok z
             | None => Raise bad_literal
             end
      end;
  json_loads :=
    fun s => if pystr_eqb s conv_text then Ok conv_json else Raise bad_literal
|}.

Definition k_session : bytes := blit "chat:session_abc".
Definition k_config : bytes := blit "config:x".
Definition k_tags : bytes := blit "tags".
Definition k_module : bytes := blit "doc:1".

Definition conn_lost : exn :=
  mkExn (OtherException "ConnectionError") (lit "Connection reset by peer").

Definition wrong_type : exn :=
  mkExn (OtherException "ResponseError")
        (lit "WRONGTYPE Operation against a key holding the wrong kind of value").

Definition redis0 : Redis := {|
  r_type :=
    fun k =>
      if bytes_eqb k k_session then Ok (TypeBytes (blit "string"))
      else if bytes_eqb k k_config then Ok (TypeBytes (blit "hash"))
      else if bytes_eqb k k_tags then Ok (TypeBytes (blit "set"))
      else if bytes_eqb k k_module then Ok (TypeBytes (blit "ReJSON-RL"))
      else Ok (TypeBytes (blit "none"));
  r_pttl := fun k => if bytes_eqb k k_session then Ok 60000%Z else Ok (-1)%Z;
  r_get :=
    fun k =>
      if bytes_eqb k k_session
      then Ok (Some (map mkbyte conv_text))
      else Ok None;
  r_hgetall := fun _ => Ok [(blit "mode", [xff; x00])];
  r_lrange := fun _ => Ok [];
  r_smembers := fun _ => Ok [blit "b"; [xff]; blit "a"; blit "ab"];
  r_zrange := fun _ => Ok [];
  r_xrange := fun _ => Ok [];
  r_dump := fun _ => Ok (Some [x00; x01; xff])
|}.

(** The same database, with one command failing or answering otherwise. *)
Definition redis_pttl_down : Redis := {|
  r_type := r_type redis0;
  r_pttl := fun _ => Raise conn_lost;
  r_get := r_get redis0;
  r_hgetall := r_hgetall redis0;
  r_lrange := r_lrange redis0;
  r_smembers := r_smembers redis0;
  r_zrange := r_zrange redis0;
  r_xrange := r_xrange redis0;
  r_dump := r_dump redis0
|}.

Definition redis_expiring : Redis := {|
  r_type := r_type redis0;
  r_pttl := fun _ => Ok 0%Z;
  r_get := r_get redis0;
  r_hgetall := r_hgetall redis0;
  r_lrange := r_lrange redis0;
  r_smembers := r_smembers redis0;
  r_zrange := r_zrange redis0;
  r_xrange := r_xrange redis0;
  r_dump := r_dump redis0
|}.

Definition redis_hash_down : Redis := {|
  r_type := r_type redis0;
  r_pttl := r_pttl redis0;
  r_get := r_get redis0;
  r_hgetall := fun _ => Raise wrong_type;
  r_lrange := r_lrange redis0;
  r_smembers := r_smembers redis0;
  r_zrange := r_zrange redis0;
  r_xrange := r_xrange redis0;
  r_dump := r_dump redis0
|}.

Definition redis_type_down : Redis := {|
  r_type := fun _ => Raise conn_lost;
  r_pttl := r_pttl redis0;
  r_get := r_get redis0;
  r_hgetall := r_hgetall redis0;
  r_lrange := r_lrange redis0;
  r_smembers := r_smembers redis0;
  r_zrange := r_zrange redis0;
  r_xrange := r_xrange redis0;
  r_dump := r_dump redis0
|}.

(** The members of [tags] as another scan would return them. *)
Definition redis_shuffled : Redis := {|
  r_type := r_type redis0;
  r_pttl := r_pttl redis0;
  r_get := r_get redis0;
  r_hgetall := r_hgetall redis0;
  r_lrange := r_lrange redis0;
  r_smembers := fun _ => Ok [blit "ab"; blit "a"; blit "b"; [xff]];
  r_zrange := r_zrange redis0;
  r_xrange := r_xrange redis0;
  r_dump := r_dump redis0
|}.

Definition server0 : Server := {|
  srv_info := Ok [InfoStr (lit "db0")];
  srv_select := fun _ => Ok tt;
  srv_scan := fun _ => ScanNext 5 [k_session] (ScanLast [k_config]);
  srv_db := fun _ => redis0
|}.

(** Everything works: the server answers the second probe and leaves
    within the grace period. *)
Definition os_ok : OS := {|
  os_rdb_path := lit "dump.rdb";
  os_redis_server := lit "redis-server";
  os_exists := true;
  os_pick_port := Ok 40123%Z;
  os_run_version := Ok (lit "Redis server v=7.2.4");
  os_mkdtemp := Ok (lit "/tmp/rdb_to_json_x");
  os_copy2 := Ok tt;
  os_popen := Ok tt;
  os_pings := [Raise conn_lost; Ok true];
  os_poll_diag := Ok None;
  os_read_streams := Some (Ok ([], []));
  os_abspath := lit "/data/dump.rdb";
  os_now := lit "2024-01-01T00:00:00+00:00";
  os_write := Ok tt;
  os_poll := Ok None;
  os_terminate := Ok tt;
  os_wait := Ok 0%Z;
  os_kill := Ok tt;
  os_rmtree := Ok tt;
  os_server := server0
|}.

Definition no_such_file : exn :=
  mkExn FileNotFoundError (lit "[Errno 2] No such file or directory").

(** The executable does not exist. *)
Definition os_no_binary : OS := {|
  os_rdb_path := os_rdb_path os_ok;
  os_redis_server := lit "/opt/missing/redis-server";
  os_exists := true;
  os_pick_port := os_pick_port os_ok;
  os_run_version := Raise no_such_file;
  os_mkdtemp := os_mkdtemp os_ok;
  os_copy2 := os_copy2 os_ok;
  os_popen := os_popen os_ok;
  os_pings := os_pings os_ok;
  os_poll_diag := os_poll_diag os_ok;
  os_read_streams := os_read_streams os_ok;
  os_abspath := os_abspath os_ok;
  os_now := os_now os_ok;
  os_write := os_write os_ok;
  os_poll := os_poll os_ok;
  os_terminate := os_terminate os_ok;
  os_wait := os_wait os_ok;
  os_kill := os_kill os_ok;
  os_rmtree := os_rmtree os_ok;
  os_server := os_server os_ok
|}.

(** The server cannot load the snapshot: it prints why and exits, and no
    probe is ever answered. *)
Definition os_too_old : OS := {|
  os_rdb_path := os_rdb_path os_ok;
  os_redis_server := os_redis_server os_ok;
  os_exists := true;
  os_pick_port := os_pick_port os_ok;
  os_run_version := Ok (lit "Redis server v=5.0.7");
  os_mkdtemp := os_mkdtemp os_ok;
  os_copy2 := os_copy2 os_ok;
  os_popen := os_popen os_ok;
  os_pings := [Raise conn_lost; Raise conn_lost; Raise conn_lost];
  os_poll_diag := Ok (Some 1%Z);
  os_read_streams := Some (Ok ([], lit "Can't handle RDB format version 12"));
  os_abspath := os_abspath os_ok;
  os_now := os_now os_ok;
  os_write := os_write os_ok;
  os_poll := Ok (Some 1%Z);
  os_terminate := os_terminate os_ok;
  os_wait := os_wait os_ok;
  os_kill := os_kill os_ok;
  os_rmtree := os_rmtree os_ok;
  os_server := os_server os_ok
|}.



(** Records of an exported document for the filter. *)
Definition utf8_obj (s : pystr) : json := encoded "utf-8" (JStr s).

Definition entry_of (key value : pystr) : list (pystr * json) :=
  [(lit "key", utf8_obj key);
   (lit "type", JStr (lit "string"));
   (lit "ttl_ms", JNull);
   (lit "value", utf8_obj value)].

Definition entry_abc : list (pystr * json) :=
  entry_of (lit "chat:session_abc") conv_text.

(** A session key whose id holds a line break. *)
Definition entry_two_lines : list (pystr * json) :=
  entry_of (session_prefix ++ lit "a" ++ nl ++ lit "b") conv_text.

Definition doc_of (db0 : list json) (others : list (pystr * json)) : json :=
  JObj [(lit "meta", JObj []);
        (lit "db", JObj ((lit "0", JObj [(lit "entries", JArr db0)])
                         :: others))].

(* ================================================================== *)
(** ** Further notions: reading values back, probes, tallies *)

(** A [{field, value}] pair of a hash or stream entry, read back. *)
Definition decode_field_pair (j : json) : option (bytes * bytes) :=
  match j with
  | JObj d =>
      match dict_get d (lit "field"), dict_get d (lit "value") with
      | Some f, Some v =>
          match decode_encoded f, decode_encoded v with
          | Some a, Some b => Some (a, b)
          | _, _ => None
          end
      | _, _ => None
      end
  | _ => None
  end.

(** A [{member, score}] element of a sorted set, read back. *)
Definition decode_member_score (j : json) : option (bytes * Z) :=
  match j with
  | JObj d =>
      match dict_get d (lit "member"), dict_get d (lit "score") with
      | Some m, Some (JFloat s) =>
          match decode_encoded m with
          | Some a => Some (a, s)
          | None => None
          end
      | _, _ => None
      end
  | _ => None
  end.

(** A probe that ends the wait. *)
Definition is_ready (p : res bool) : bool :=
  match p with
  | Ok true => true
  | _ => false
  end.

(** What one unanswered probe leaves in the trace. *)
Definition probe_events (failed : list (res bool)) : list event :=
  flat_map (fun _ => [EvPing; EvSleep]) failed.

(** The exception of the last probe that raised, if any did. *)
Definition last_error (pings : list (res bool)) : option exn :=
  fold_left (fun acc p => match p with
                          | Raise e => Some e
                          | Ok _ => acc
                          end) pings None.

Definition not_ready (last : option exn) : exn :=
  mkExn RuntimeError
        (lit "Redis did not become ready in 20.0s. Last error: "
         ++ str_of_exn_opt last).

(** What the failed start reports of the process: (stderr, stdout) when
    both the poll and the reads work, nothing otherwise. *)
Definition diagnostics (os : OS) : pystr * pystr :=
  match os_poll_diag os, os_read_streams os with
  | Ok _, Some (Ok oe) => oe
  | _, _ => ([], [])
  end.

(** Gathering the diagnostics comes to an end: the poll raises, or the
    reads return. *)
Definition diagnostics_return (os : OS) : Prop :=
  (exists e, os_poll_diag os = Raise e) \/ os_read_streams os <> None.

(** The steps of an export up to the spawn all work, and the version
    probe answers [ver]. *)
Definition spawns (py : PyLib) (os : OS) (ver : pystr) : Prop :=
  os_exists os = true
  /\ (exists port, os_pick_port os = Ok port)
  /\ (exists out, os_run_version os = Ok out /\ str_strip py out = ver)
  /\ ver <> []
  /\ (exists tmp, os_mkdtemp os = Ok tmp)
  /\ os_copy2 os = Ok tt
  /\ os_popen os = Ok tt.

(** The pair the filter writes for a conversation. *)
Definition pair_of (sid : pystr) (conv : json) : json :=
  JObj [(lit "session_id", JStr sid); (lit "conversation", conv)].

(** The pairs one entry contributes to the output: one or none. *)
Definition emitted (py : PyLib) (entry : json) : list json :=
  match classify py entry with
  | Emit sid conv => [pair_of sid conv]
  | _ => []
  end.

(** How many entries a tally accounts for. *)
Definition accounted (t : tally) : nat :=
  (List.length (out t) + skipped t + parsed_fail t + not_session_key t
   + not_conversation t)%nat.

Definition tally_of (py : PyLib) (entries : list json) : tally :=
  fold_left (step py) entries tally0.

(* ------------------------------------------------------------------ *)
(** *** More sample runs *)

(** The executable runs but prints nothing for [--version]. *)
Definition os_blank_version : OS := {|
  os_rdb_path := os_rdb_path os_ok;
  os_redis_server := os_redis_server os_ok;
  os_exists := true;
  os_pick_port := os_pick_port os_ok;
  os_run_version := Ok [];
  os_mkdtemp := os_mkdtemp os_ok;
  os_copy2 := os_copy2 os_ok;
  os_popen := os_popen os_ok;
  os_pings := os_pings os_ok;
  os_poll_diag := os_poll_diag os_ok;
  os_read_streams := os_read_streams os_ok;
  os_abspath := os_abspath os_ok;
  os_now := os_now os_ok;
  os_write := os_write os_ok;
  os_poll := os_poll os_ok;
  os_terminate := os_terminate os_ok;
  os_wait := os_wait os_ok;
  os_kill := os_kill os_ok;
  os_rmtree := os_rmtree os_ok;
  os_server := os_server os_ok
|}.

Definition permission_denied : exn :=
  mkExn (OtherException "PermissionError") (lit "[Errno 13] Permission denied").

(** The executable exists but may not be run. *)
Definition os_not_executable : OS := {|
  os_rdb_path := os_rdb_path os_ok;
  os_redis_server := os_redis_server os_ok;
  os_exists := true;
  os_pick_port := os_pick_port os_ok;
  os_run_version := Raise permission_denied;
  os_mkdtemp := os_mkdtemp os_ok;
  os_copy2 := os_copy2 os_ok;
  os_popen := os_popen os_ok;
  os_pings := os_pings os_ok;
  os_poll_diag := os_poll_diag os_ok;
  os_read_streams := os_read_streams os_ok;
  os_abspath := os_abspath os_ok;
  os_now := os_now os_ok;
  os_write := os_write os_ok;
  os_poll := os_poll os_ok;
  os_terminate := os_terminate os_ok;
  os_wait := os_wait os_ok;
  os_kill := os_kill os_ok;
  os_rmtree := os_rmtree os_ok;
  os_server := os_server os_ok
|}.

(** Neither the snapshot nor the executable exists. *)
Definition os_no_snapshot : OS := {|
  os_rdb_path := lit "missing.rdb";
  os_redis_server := os_redis_server os_no_binary;
  os_exists := false;
  os_pick_port := os_pick_port os_ok;
  os_run_version := os_run_version os_no_binary;
  os_mkdtemp := os_mkdtemp os_ok;
  os_copy2 := os_copy2 os_ok;
  os_popen := os_popen os_ok;
  os_pings := os_pings os_ok;
  os_poll_diag := os_poll_diag os_ok;
  os_read_streams := os_read_streams os_ok;
  os_abspath := os_abspath os_ok;
  os_now := os_now os_ok;
  os_write := os_write os_ok;
  os_poll := os_poll os_ok;
  os_terminate := os_terminate os_ok;
  os_wait := os_wait os_ok;
  os_kill := os_kill os_ok;
  os_rmtree := os_rmtree os_ok;
  os_server := os_server os_ok
|}.


(** A database with a list and a sorted set; scores are the bit patterns
    of 1.0 and 2.5. *)
Definition k_jobs : bytes := blit "jobs".
Definition k_board : bytes := blit "board".

Definition redis_queue : Redis := {|
  r_type :=
    fun k =>
      if bytes_eqb k k_jobs then Ok (TypeBytes (blit "list"))
      else if bytes_eqb k k_board then Ok (TypeBytes (blit "zset"))
      else r_type redis0 k;
  r_pttl := r_pttl redis0;
  r_get := r_get redis0;
  r_hgetall := r_hgetall redis0;
  r_lrange := fun _ => Ok [blit "one"; [xff]; blit "one"];
  r_smembers := r_smembers redis0;
  r_zrange :=
    fun _ => Ok [(blit "a", 4607182418800017408%Z);
                 ([x00; xfe], 4612811918334230528%Z)];
  r_xrange := r_xrange redis0;
  r_dump := r_dump redis0
|}.

(** The type of [config:x] cannot be queried. *)
Definition redis_one_bad : Redis := {|
  r_type :=
    fun k => if bytes_eqb k k_config then Raise conn_lost else r_type redis0 k;
  r_pttl := r_pttl redis0;
  r_get := r_get redis0;
  r_hgetall := r_hgetall redis0;
  r_lrange := r_lrange redis0;
  r_smembers := r_smembers redis0;
  r_zrange := r_zrange redis0;
  r_xrange := r_xrange redis0;
  r_dump := r_dump redis0
|}.

(** The database numbers that the keys of a keyspace summary spell. *)
Definition parsed_index (py : PyLib) (k : info_key) : list Z :=
  match k with
  | InfoStr s =>
      if starts_with (lit "db") s then
        match py_int py (skipn 2 s) with
        | Ok n => [n]
        | Raise _ => []
        end
      else []
  | InfoOther => []
  end.

Definition parsed_indexes (py : PyLib) (ks : list info_key) : list Z :=
  flat_map (parsed_index py) ks.

(** Every key that fails to parse fails with [ValueError]. *)
Definition only_value_errors (py : PyLib) (ks : list info_key) : Prop :=
  forall s e,
    In (InfoStr s) ks -> starts_with (lit "db") s = true ->
    py_int py (skipn 2 s) = Raise e -> is_ValueError e = true.

(** What gathering the diagnostics leaves in the trace. *)
Definition diag_events (os : OS) : list event :=
  match os_poll_diag os with
  | Ok _ => [EvPoll; EvReadStreams]
  | Raise _ => [EvPoll]
  end.

(** The trace of an export up to the spawn. *)
Definition spawn_events : list event :=
  [EvExists; EvPickPort; EvVersion; EvMkdtemp; EvCopy; EvPopen].

(** The state in which the body of the [try] starts. *)
Definition spawned_state : st := mkSt spawn_events Running true None.

Definition not_a_list_msg : pystr :=
  lit "Unexpected input: doc['db']['0']['entries'] is not a list".

(** Two tallies put together: outputs in sequence, counters summed. *)
Definition tally_plus (a b : tally) : tally :=
  mkTally (out a ++ out b)
          (skipped a + skipped b)
          (parsed_fail a + parsed_fail b)
          (not_session_key a + not_session_key b)
          (not_conversation a + not_conversation b).

(** One of [doc], [doc["db"]], [doc["db"]["0"]] is there and is not a
    mapping. *)
Definition broken_path (doc : json) : Prop :=
  (forall d, doc <> JObj d)
  \/ exists d,
       doc = JObj d
       /\ exists v,
            (dict_get d (lit "db") = Some v /\ forall o, v <> JObj o)
            \/ exists db,
                 dict_get d (lit "db") = Some (JObj db)
                 /\ dict_get db (lit "0") = Some v /\ forall o, v <> JObj o.

(** One of the keys on the way to the entries is absent. *)
Definition missing_path (doc : json) : Prop :=
  exists d,
    doc = JObj d
    /\ (dict_get d (lit "db") = None
        \/ exists db,
             dict_get d (lit "db") = Some (JObj db)
             /\ (dict_get db (lit "0") = None
                 \/ exists db0,
                      dict_get db (lit "0") = Some (JObj db0)
                      /\ dict_get db0 (lit "entries") = None)).

(** The server is alive but still loading: no probe is answered, and its
    pipes stay open. *)
Definition os_loading : OS := {|
  os_rdb_path := os_rdb_path os_ok;
  os_redis_server := os_redis_server os_ok;
  os_exists := true;
  os_pick_port := os_pick_port os_ok;
  os_run_version := os_run_version os_ok;
  os_mkdtemp := os_mkdtemp os_ok;
  os_copy2 := os_copy2 os_ok;
  os_popen := os_popen os_ok;
  os_pings := [Raise conn_lost; Raise conn_lost];
  os_poll_diag := Ok None;
  os_read_streams := None;
  os_abspath := os_abspath os_ok;
  os_now := os_now os_ok;
  os_write := os_write os_ok;
  os_poll := os_poll os_ok;
  os_terminate := os_terminate os_ok;
  os_wait := os_wait os_ok;
  os_kill := os_kill os_ok;
  os_rmtree := os_rmtree os_ok;
  os_server := os_server os_ok
|}.

(** A database with one stream of one entry. *)
Definition k_events : bytes := blit "events".

Definition redis_stream : Redis := {|
  r_type :=
    fun k =>
      if bytes_eqb k k_events then Ok (TypeBytes (blit "stream"))
      else r_type redis0 k;
  r_pttl := r_pttl redis0;
  r_get := r_get redis0;
  r_hgetall := r_hgetall redis0;
  r_lrange := r_lrange redis0;
  r_smembers := r_smembers redis0;
  r_zrange := r_zrange redis0;
  r_xrange :=
    fun _ => Ok [(SBytes (blit "1700000000000-0"),
                  [(blit "user", blit "ann"); (blit "op", blit "login")])];
  r_dump := r_dump redis0
|}.

(** What the loop over the fields of a stream entry raises at its first
    key [k]: the key does not unpack into two items, or it does and the
    first of them, an int, reaches [_encode_bytes]. *)
Definition stream_field_error (k : bytes) : exn :=
  match unpack_pair k with
  | Ok _ => mkExn AttributeError (lit "'int' object has no attribute 'decode'")
  | Raise e => e
  end.

(** What the trace of an export can hold when the server is not spawned. *)
Definition early_events : list event :=
  [EvExists; EvPickPort; EvVersion; EvMkdtemp; EvCopy; EvPopen; EvRmtree].

(** The state an export ends in after the spawn, given the state [s3] in
    which the teardown ends: the removal is attempted, and the directory
    is gone when it works. *)
Definition after_cleanup (os : OS) (s3 : st) : st :=
  mkSt (trace s3 ++ [EvRmtree]) (proc s3)
       (match os_rmtree os with
        | Ok _ => false
        | Raise _ => tmp_exists s3
        end)
       (written s3).

(** How the [with] statement ends when its body ends with [r]. *)
Definition cleanup_outcome {A} (os : OS) (r : res A) : res A :=
  match os_rmtree os with
  | Ok _ => r
  | Raise e => Raise e
  end.

(** The start-up failure, with what could be gathered of the process. *)
Definition startup_error (os : OS) (ver : pystr) : exn :=
  mkExn RuntimeError
        (failed_to_start ver (snd (diagnostics os)) (fst (diagnostics os))).

(** How the handler of a failed wait ends: it raises the start-up
    failure, unless the poll works and the reads never return. *)
Definition startup_outcome (os : OS) (ver : pystr) : option (res unit) :=
  match os_poll_diag os, os_read_streams os with
  | Ok _, None => None
  | _, _ => Some (Raise (startup_error os ver))
  end.

(** The state of the process after the poll of the handler. *)
Definition diag_proc (os : OS) (p : proc_state) : proc_state :=
  match os_poll_diag os with
  | Ok (Some _) => Exited
  | _ => p
  end.
(* ================================================================== *)
(** * Proofs *)

(** ** Bytes *)

Lemma bval_bound (b : byte) : bval b <= 255.
Proof. apply Byte.to_N_bounded. Qed.

Lemma mkbyte_bval (b : byte) : mkbyte (bval b) = b.
Proof. unfold mkbyte, bval. now rewrite Byte.of_to_N. Qed.

Lemma bval_mkbyte (n : N) : n <= 255 -> bval (mkbyte n) = n.
Proof.
  intro H. unfold mkbyte, bval.
  destruct (Byte.of_N n) as [b|] eqn:E.
  - now apply Byte.to_of_N.
  - apply Byte.of_N_None_iff in E. lia.
Qed.

Lemma mkbyte_eq (n : N) (b : byte) : n = bval b -> mkbyte n = b.
Proof. intros ->. apply mkbyte_bval. Qed.

Lemma pystr_eqb_eq (a b : pystr) : pystr_eqb a b = true <-> a = b.
Proof.
  revert b. induction a as [|x a IH]; intros [|y b]; simpl;
    try (split; congruence).
  rewrite andb_true_iff, N.eqb_eq, IH. split.
  - intros [-> ->]. reflexivity.
  - intro H. inversion H. auto.
Qed.

Lemma pystr_eqb_refl (a : pystr) : pystr_eqb a a = true.
Proof. now apply pystr_eqb_eq. Qed.

(** Induction three elements at a time, as [b64encode] recurses. *)
Lemma list_ind3 {A} (P : list A -> Prop) :
  P [] ->
  (forall a, P [a]) ->
  (forall a b, P [a; b]) ->
  (forall a b c l, P l -> P (a :: b :: c :: l)) ->
  forall l, P l.
Proof.
  intros H0 H1 H2 H3.
  fix IH 1.
  intros [|a [|b [|c l]]];
    [apply H0 | apply H1 | apply H2 | apply H3, IH].
Qed.

(** ** Base64 *)

Section Base64_facts.
Import Base64.

Lemma alphabet_bound n : alphabet n <= 122.
Proof.
  unfold alphabet.
  repeat match goal with
         | |- context [?a <? ?b] => destruct (N.ltb_spec a b)
         | |- context [?a =? ?b] => destruct (N.eqb_spec a b)
         end; lia.
Qed.

Lemma sextet_alphabet n : n < 64 -> sextet (alphabet n) = Some n.
Proof.
  intro H. unfold alphabet, sextet.
  repeat match goal with
         | |- context [?a <? ?b] => destruct (N.ltb_spec a b)
         | |- context [N.eqb ?a ?b] => destruct (N.eqb_spec a b)
         | |- context [?a <=? ?b] => destruct (N.leb_spec a b)
         end; simpl; try lia; f_equal; lia.
Qed.

Lemma alphabet_not_pad n : (alphabet n =? pad) = false.
Proof.
  apply N.eqb_neq. unfold alphabet, pad.
  repeat match goal with
         | |- context [?a <? ?b] => destruct (N.ltb_spec a b)
         | |- context [N.eqb ?a ?b] => destruct (N.eqb_spec a b)
         end; lia.
Qed.

Lemma bval_alphabet n : bval (mkbyte (alphabet n)) = alphabet n.
Proof. apply bval_mkbyte. pose proof (alphabet_bound n). lia. Qed.

Lemma bval_pad : bval (mkbyte pad) = pad.
Proof. reflexivity. Qed.

(** The encoder writes only ASCII. *)
Lemma b64encode_ascii data :
  forallb (fun x => bval x <? 128) (b64encode data) = true.
Proof.
  induction data as [|a|a b|a b c l IH] using list_ind3; simpl;
    rewrite ?bval_alphabet, ?bval_pad, ?IH;
    repeat match goal with
           | |- context [alphabet ?n <? 128] =>
               let H := fresh in
               assert (H : (alphabet n <? 128) = true)
                 by (apply N.ltb_lt; pose proof (alphabet_bound n); lia);
               rewrite H; clear H
           end; reflexivity.
Qed.

Lemma b64_roundtrip data :
  b64decode (map bval (b64encode data)) = Some data.
Proof.
  induction data as [|a|a b|a b c l IH] using list_ind3.
  - reflexivity.
  - pose proof (bval_bound a).
    cbn [b64encode quad map b64decode].
    rewrite !bval_alphabet, bval_pad.
    rewrite !sextet_alphabet by lia.
    rewrite N.eqb_refl. cbn [andb].
    replace (bval a mod 4 * 16 mod 16 =? 0) with true
      by (symmetry; apply N.eqb_eq; lia).
    do 2 f_equal. apply mkbyte_eq. lia.
  - pose proof (bval_bound a). pose proof (bval_bound b).
    cbn [b64encode quad map b64decode].
    rewrite !bval_alphabet, bval_pad.
    rewrite !sextet_alphabet by lia.
    rewrite alphabet_not_pad, N.eqb_refl.
    replace (bval b mod 16 * 4 mod 4 =? 0) with true
      by (symmetry; apply N.eqb_eq; lia).
    f_equal. f_equal; [|f_equal]; apply mkbyte_eq; lia.
  - pose proof (bval_bound a). pose proof (bval_bound b).
    pose proof (bval_bound c).
    cbn [b64encode quad map b64decode app].
    rewrite !bval_alphabet.
    rewrite !sextet_alphabet by lia.
    rewrite !alphabet_not_pad, IH.
    f_equal. f_equal; [|f_equal; [|f_equal]]; apply mkbyte_eq; lia.
Qed.

End Base64_facts.

Lemma b64_total (data : bytes) :
  _b64 data = Ok (map bval (Base64.b64encode data)).
Proof. unfold _b64, decode_ascii. now rewrite b64encode_ascii. Qed.

(** ** UTF-8 *)

Section Utf8_facts.
Import Utf8.

(** Settle each comparison that the context decides. *)
Ltac settle :=
  repeat match goal with
         | |- context [?a <? ?b] =>
             first [ replace (a <? b) with true
                       by (symmetry; apply N.ltb_lt; lia)
                   | replace (a <? b) with false
                       by (symmetry; apply N.ltb_ge; lia) ]
         | |- context [?a <=? ?b] =>
             first [ replace (a <=? b) with true
                       by (symmetry; apply N.leb_le; lia)
                   | replace (a <=? b) with false
                       by (symmetry; apply N.leb_gt; lia) ]
         end.

Ltac split_eqb :=
  repeat match goal with
         | |- context [N.eqb ?a ?b] => destruct (N.eqb_spec a b)
         end.

Lemma in_range_spec lo hi n :
  in_range lo hi n = true -> lo <= n /\ n <= hi.
Proof.
  unfold in_range. intro H. apply andb_true_iff in H as [H1 H2].
  apply N.leb_le in H1. apply N.leb_le in H2. now split.
Qed.

Lemma is_cont_spec n : is_cont n = true -> 0x80 <= n /\ n <= 0xBF.
Proof. apply in_range_spec. Qed.

Lemma is_scalar_spec c :
  is_scalar c = true <-> c < 0xD800 \/ (0xE000 <= c /\ c < 0x110000).
Proof.
  unfold is_scalar. rewrite orb_true_iff, andb_true_iff.
  rewrite !N.ltb_lt, N.leb_le. tauto.
Qed.

Lemma cons_opt_some c r s :
  cons_opt c r = Some s -> exists s', r = Some s' /\ s = c :: s'.
Proof.
  destruct r as [s'|]; simpl; intro H; [|discriminate].
  exists s'. split; congruence.
Qed.

Lemma encode_cp_1 b0 :
  bval b0 < 0x80 ->
  is_scalar (bval b0) = true /\ encode_cp (bval b0) = [b0].
Proof.
  intro H. split; [apply is_scalar_spec; lia|].
  unfold encode_cp. settle. now rewrite mkbyte_bval.
Qed.

Lemma encode_cp_2 b0 b1 :
  0xC2 <= bval b0 -> bval b0 < 0xE0 -> is_cont (bval b1) = true ->
  let c := (bval b0 - 0xC0) * 64 + (bval b1 - 0x80) in
  is_scalar c = true /\ encode_cp c = [b0; b1].
Proof.
  intros H0 H1 H2 c. subst c. apply is_cont_spec in H2.
  split; [apply is_scalar_spec; lia|].
  unfold encode_cp. settle.
  f_equal; [|f_equal]; apply mkbyte_eq; lia.
Qed.

Lemma encode_cp_3 b0 b1 b2 :
  0xE0 <= bval b0 -> bval b0 < 0xF0 ->
  in_range (lo3 (bval b0)) (hi3 (bval b0)) (bval b1) = true ->
  is_cont (bval b2) = true ->
  let c := (bval b0 - 0xE0) * 4096 + (bval b1 - 0x80) * 64
           + (bval b2 - 0x80) in
  is_scalar c = true /\ encode_cp c = [b0; b1; b2].
Proof.
  intros H0 H1 H2 H3 c. subst c.
  apply is_cont_spec in H3. apply in_range_spec in H2.
  unfold lo3, hi3 in H2. unfold encode_cp.
  destruct (N.eqb_spec (bval b0) 0xE0), (N.eqb_spec (bval b0) 0xED);
    try (exfalso; lia);
    (split; [apply is_scalar_spec; lia|]); settle;
    (f_equal; [|f_equal; [|f_equal]]; apply mkbyte_eq; lia).
Qed.

Lemma encode_cp_4 b0 b1 b2 b3 :
  0xF0 <= bval b0 -> bval b0 < 0xF5 ->
  in_range (lo4 (bval b0)) (hi4 (bval b0)) (bval b1) = true ->
  is_cont (bval b2) = true -> is_cont (bval b3) = true ->
  let c := (bval b0 - 0xF0) * 262144 + (bval b1 - 0x80) * 4096
           + (bval b2 - 0x80) * 64 + (bval b3 - 0x80) in
  is_scalar c = true /\ encode_cp c = [b0; b1; b2; b3].
Proof.
  intros H0 H1 H2 H3 H4 c. subst c.
  apply is_cont_spec in H3. apply is_cont_spec in H4.
  apply in_range_spec in H2.
  unfold lo4, hi4 in H2. unfold encode_cp.
  destruct (N.eqb_spec (bval b0) 0xF0), (N.eqb_spec (bval b0) 0xF4);
    try (exfalso; lia);
    (split; [apply is_scalar_spec; lia|]); settle;
    (f_equal; [|f_equal; [|f_equal; [|f_equal]]]; apply mkbyte_eq; lia).
Qed.

Lemma encode_cons c s (b r : bytes) :
  is_scalar c = true -> encode_cp c = b -> encode s = Some r ->
  encode (c :: s) = Some (b ++ r).
Proof. intros H1 H2 H3. simpl. now rewrite H1, H3, H2. Qed.

(** What strict decoding accepts, the encoder writes back. *)
Lemma decode_sound_len (n : nat) :
  forall data s,
    (List.length data <= n)%nat ->
    decode data = Some s -> encode s = Some data.
Proof.
  induction n as [|n IH]; intros data s Hlen Hdec.
  - destruct data; [|simpl in Hlen; lia].
    simpl in Hdec. now inversion Hdec.
  - destruct data as [|b0 t0]; [simpl in Hdec; now inversion Hdec|].
    simpl in Hlen. cbn [decode] in Hdec. cbv zeta in Hdec.
    destruct (N.ltb_spec (bval b0) 0x80) as [L1|L1].
    { apply cons_opt_some in Hdec as (s' & Hs' & ->).
      destruct (encode_cp_1 b0 L1) as [Hsc Hcp].
      apply (encode_cons _ _ [b0]); auto. apply IH; auto. lia. }
    destruct (N.ltb_spec (bval b0) 0xC2) as [L2|L2]; [discriminate|].
    destruct (N.ltb_spec (bval b0) 0xE0) as [L3|L3].
    { destruct t0 as [|b1 t1]; [discriminate|].
      destruct (is_cont (bval b1)) eqn:C1; [|discriminate].
      apply cons_opt_some in Hdec as (s' & Hs' & ->).
      destruct (encode_cp_2 b0 b1 L2 L3 C1) as [Hsc Hcp].
      apply (encode_cons _ _ [b0; b1]); auto.
      apply IH; auto. simpl in Hlen. lia. }
    destruct (N.ltb_spec (bval b0) 0xF0) as [L4|L4].
    { destruct t0 as [|b1 [|b2 t2]]; try discriminate.
      destruct (in_range _ _ (bval b1)) eqn:C1; [|discriminate].
      destruct (is_cont (bval b2)) eqn:C2; [|discriminate].
      cbn [andb] in Hdec.
      apply cons_opt_some in Hdec as (s' & Hs' & ->).
      destruct (encode_cp_3 b0 b1 b2 L3 L4 C1 C2) as [Hsc Hcp].
      apply (encode_cons _ _ [b0; b1; b2]); auto.
      apply IH; auto. simpl in Hlen. lia. }
    destruct (N.ltb_spec (bval b0) 0xF5) as [L5|L5]; [|discriminate].
    destruct t0 as [|b1 [|b2 [|b3 t3]]]; try discriminate.
    destruct (in_range _ _ (bval b1)) eqn:C1; [|discriminate].
    destruct (is_cont (bval b2)) eqn:C2; [|discriminate].
    destruct (is_cont (bval b3)) eqn:C3; [|discriminate].
    cbn [andb] in Hdec.
    apply cons_opt_some in Hdec as (s' & Hs' & ->).
    destruct (encode_cp_4 b0 b1 b2 b3 L4 L5 C1 C2 C3) as [Hsc Hcp].
    apply (encode_cons _ _ [b0; b1; b2; b3]); auto.
    apply IH; auto. simpl in Hlen. lia.
Qed.

Lemma decode_sound data s : decode data = Some s -> encode s = Some data.
Proof. apply (decode_sound_len (List.length data)). lia. Qed.

(** What the encoder writes, strict decoding reads back. *)
Lemma decode_encode_cp c t :
  is_scalar c = true ->
  decode (encode_cp c ++ t) = cons_opt c (decode t).
Proof.
  intro Hc. apply is_scalar_spec in Hc. unfold encode_cp.
  destruct (N.ltb_spec c 0x80) as [L1|L1];
    [|destruct (N.ltb_spec c 0x800) as [L2|L2];
      [|destruct (N.ltb_spec c 0x10000) as [L3|L3]]];
    cbn [app decode]; cbv zeta;
    rewrite !bval_mkbyte by lia; settle.
  - reflexivity.
  - unfold is_cont. settle. cbn [andb]. f_equal. lia.
  - unfold in_range, is_cont, lo3, hi3.
    split_eqb; settle; cbn [andb]; f_equal; lia.
  - unfold in_range, is_cont, lo4, hi4.
    split_eqb; settle; cbn [andb]; f_equal; lia.
Qed.

Lemma decode_complete s :
  forall data, encode s = Some data -> decode data = Some s.
Proof.
  induction s as [|c s IH]; intros data H; simpl in H.
  - now inversion H.
  - destruct (is_scalar c) eqn:Hsc; [|discriminate].
    destruct (encode s) as [r|]; [|discriminate].
    inversion H; subst data.
    rewrite decode_encode_cp by assumption.
    now rewrite (IH r eq_refl).
Qed.

(** Strict decoding succeeds exactly on well-formed UTF-8. *)
Lemma decode_iff_valid data :
  (exists s, decode data = Some s) <-> valid_utf8 data.
Proof.
  split; intros [s H]; exists s.
  - now apply decode_sound.
  - now apply decode_complete.
Qed.

End Utf8_facts.

(** ** The byte encoder *)

Lemma encode_bytes_eq (b : bytes) :
  _encode_bytes (Some b) = Ok (encoded_bytes b).
Proof.
  unfold _encode_bytes, encoded_bytes, decode_utf8.
  destruct (Utf8.decode b); [reflexivity|].
  cbn [is_UnicodeDecodeError exn_class]. now rewrite b64_total.
Qed.

Lemma decode_encoded_bytes (b : bytes) :
  decode_encoded (encoded_bytes b) = Some b.
Proof.
  unfold encoded_bytes.
  destruct (Utf8.decode b) as [s|] eqn:E.
  - change (decode_encoded (encoded "utf-8" (JStr s))) with (Utf8.encode s).
    now apply decode_sound.
  - change (decode_encoded
              (encoded "base64" (JStr (map bval (Base64.b64encode b)))))
      with (Base64.b64decode (map bval (Base64.b64encode b))).
    apply b64_roundtrip.
Qed.

Lemma encoding_of_encoded_bytes (b : bytes) :
  encoding_of (encoded_bytes b)
  = Some (JStr (lit (match Utf8.decode b with
                     | Some _ => "utf-8"
                     | None => "base64"
                     end))).
Proof. unfold encoded_bytes. now destruct (Utf8.decode b). Qed.

(** C1.  For every byte sequence [b] the encoder returns an [EncodedBytes]
    object; decoding its [data] as its [encoding] says gives [b] back; the
    encoding is ["utf-8"] exactly when [b] is well-formed UTF-8 and
    ["base64"] exactly when it is not. *)
Theorem encode_bytes_roundtrip (b : bytes) :
  exists eb,
    _encode_bytes (Some b) = Ok eb
    /\ decode_encoded eb = Some b
    /\ (encoding_of eb = Some (JStr (lit "utf-8")) <-> valid_utf8 b)
    /\ (encoding_of eb = Some (JStr (lit "base64")) <-> ~ valid_utf8 b).
Proof.
  exists (encoded_bytes b).
  split; [apply encode_bytes_eq|].
  split; [apply decode_encoded_bytes|].
  rewrite encoding_of_encoded_bytes, <- decode_iff_valid.
  destruct (Utf8.decode b) as [s|] eqn:E; split; split.
  - intros _. now exists s.
  - reflexivity.
  - intro H. discriminate H.
  - intros H. exfalso. apply H. now exists s.
  - intro H. discriminate H.
  - intros [s H]. discriminate H.
  - intros _ [s H]. discriminate H.
  - reflexivity.
Qed.

(** The empty string, an embedded NUL and a lone continuation byte. *)
Example encode_bytes_samples :
  _encode_bytes (Some []) = Ok (encoded "utf-8" (JStr []))
  /\ _encode_bytes (Some [x61; x00; x62])
     = Ok (encoded "utf-8" (JStr [97; 0; 98]))
  /\ _encode_bytes (Some [xff; x00])
     = Ok (encoded "base64" (JStr (lit "/wA=")))
  /\ _encode_bytes (Some [xed; xa0; x80])
     = Ok (encoded "base64" (JStr (lit "7aCA"))).
Proof. repeat split; reflexivity. Qed.

Lemma encode_key_eq (key : bytes) : _encode_key key = Ok (encoded_bytes key).
Proof.
  unfold _encode_key. rewrite encode_bytes_eq. cbn [bind].
  unfold encoded_bytes. now destruct (Utf8.decode key).
Qed.

Lemma mapM_total {A B} (f : A -> res B) (g : A -> B) (l : list A) :
  (forall x, f x = Ok (g x)) -> mapM f l = Ok (map g l).
Proof.
  intro H. induction l as [|x t IH]; simpl; [reflexivity|].
  now rewrite H, IH.
Qed.

Lemma encode_list_eq (vals : list bytes) :
  encode_list vals = Ok (JArr (map encoded_bytes vals)).
Proof.
  unfold encode_list.
  now rewrite (mapM_total _ encoded_bytes) by apply encode_bytes_eq.
Qed.

(** ** Sorting *)

Section Sort_facts.
Context {A : Type} (leb : A -> A -> bool).
Hypothesis leb_total : forall a b, leb a b = true \/ leb b a = true.
Hypothesis leb_trans :
  forall a b c, leb a b = true -> leb b c = true -> leb a c = true.
Hypothesis leb_antisym :
  forall a b, leb a b = true -> leb b a = true -> a = b.

Let le (a b : A) : Prop := leb a b = true.

Lemma insert_sorted_perm x l : Permutation (x :: l) (insert_sorted leb x l).
Proof.
  induction l as [|y t IH]; simpl; [reflexivity|].
  destruct (leb x y); [reflexivity|].
  rewrite perm_swap. now apply perm_skip.
Qed.

Lemma py_sort_perm l : Permutation l (py_sort leb l).
Proof.
  induction l as [|x t IH]; simpl; [reflexivity|].
  rewrite <- insert_sorted_perm. now apply perm_skip.
Qed.

Lemma insert_sorted_sorted x l :
  StronglySorted le l -> StronglySorted le (insert_sorted leb x l).
Proof.
  induction 1 as [|y t Hs IH Hy]; simpl.
  - repeat constructor.
  - destruct (leb x y) eqn:E.
    + constructor; [now constructor|].
      constructor; [exact E|].
      eapply Forall_impl; [|exact Hy].
      intros z Hz. exact (leb_trans _ _ _ E Hz).
    + constructor; [exact IH|].
      assert (Hyx : le y x)
        by (destruct (leb_total x y) as [H|H]; [congruence | exact H]).
      eapply Permutation_Forall; [apply insert_sorted_perm|].
      now constructor.
Qed.

Lemma py_sort_sorted l : StronglySorted le (py_sort leb l).
Proof.
  induction l as [|x t IH]; simpl; [constructor|].
  now apply insert_sorted_sorted.
Qed.

(** A list has one sorted arrangement. *)
Lemma sorted_perm_unique l1 :
  forall l2,
    StronglySorted le l1 -> StronglySorted le l2 ->
    Permutation l1 l2 -> l1 = l2.
Proof.
  induction l1 as [|x t IH]; intros l2 H1 H2 P.
  - now apply Permutation_nil in P.
  - destruct l2 as [|y u];
      [apply Permutation_sym, Permutation_nil in P; discriminate|].
    inversion H1 as [|? ? Ht Hx]; subst.
    inversion H2 as [|? ? Hu Hy]; subst.
    assert (x = y) as ->.
    { assert (In x (y :: u))
        by (eapply Permutation_in; [exact P | now left]).
      assert (In y (x :: t))
        by (eapply Permutation_in;
            [apply Permutation_sym; exact P | now left]).
      rewrite Forall_forall in Hx, Hy.
      destruct H as [->|Hin]; [reflexivity|].
      destruct H0 as [->|Hin']; [reflexivity|].
      apply leb_antisym; [apply Hx | apply Hy]; assumption. }
    f_equal. apply IH; auto.
    eapply Permutation_cons_inv; exact P.
Qed.

Lemma py_sort_order_independent l1 l2 :
  Permutation l1 l2 -> py_sort leb l1 = py_sort leb l2.
Proof.
  intro P. apply sorted_perm_unique; try apply py_sort_sorted.
  rewrite <- !py_sort_perm. exact P.
Qed.
End Sort_facts.

Lemma bytes_leb_total a : forall b, bytes_leb a b = true \/ bytes_leb b a = true.
Proof.
  induction a as [|x a IH]; intros [|y b]; simpl; auto.
  destruct (N.ltb_spec (bval x) (bval y)), (N.ltb_spec (bval y) (bval x));
    auto.
Qed.

Lemma bval_inj x y : bval x = bval y -> x = y.
Proof. intro H. rewrite <- (mkbyte_bval x), <- (mkbyte_bval y). now f_equal. Qed.

Lemma bytes_leb_antisym a :
  forall b, bytes_leb a b = true -> bytes_leb b a = true -> a = b.
Proof.
  induction a as [|x a IH]; intros [|y b]; simpl; try discriminate; auto.
  destruct (N.ltb_spec (bval x) (bval y)), (N.ltb_spec (bval y) (bval x));
    try discriminate; try lia.
  intros H1 H2. f_equal; [apply bval_inj; lia | now apply IH].
Qed.

Lemma bytes_leb_trans a :
  forall b c, bytes_leb a b = true -> bytes_leb b c = true ->
              bytes_leb a c = true.
Proof.
  induction a as [|x a IH]; intros [|y b] [|z c]; simpl;
    try discriminate; auto.
  destruct (N.ltb_spec (bval x) (bval y)), (N.ltb_spec (bval y) (bval x)),
           (N.ltb_spec (bval y) (bval z)), (N.ltb_spec (bval z) (bval y)),
           (N.ltb_spec (bval x) (bval z)), (N.ltb_spec (bval z) (bval x));
    try discriminate; try lia; auto.
  apply IH.
Qed.

(** ** [_read_key_entry] *)

Lemma read_key_entry_eq py r key t :
  r_type r key = Ok t ->
  _read_key_entry py r key = Ok (JObj (record_of py r key t)).
Proof.
  intro H. unfold _read_key_entry, record_of.
  rewrite H, encode_key_eq. cbn [bind].
  now destruct (read_value r key (key_type_str_of py t)).
Qed.

Lemma read_key_entry_inv py r key rec :
  _read_key_entry py r key = Ok rec ->
  exists t, r_type r key = Ok t /\ rec = JObj (record_of py r key t).
Proof.
  intro H. destruct (r_type r key) as [t|e] eqn:E.
  - exists t. split; [reflexivity|].
    rewrite (read_key_entry_eq py r key t E) in H. congruence.
  - unfold _read_key_entry in H. rewrite E in H. discriminate.
Qed.

Lemma record_of_ttl py r key t :
  dict_get (record_of py r key t) (lit "ttl_ms")
  = Some (ttl_ms_of (r_pttl r key)).
Proof. reflexivity. Qed.

Lemma record_of_key py r key t :
  dict_get (record_of py r key t) (lit "key") = Some (encoded_bytes key).
Proof. reflexivity. Qed.

Lemma record_of_outcome py r key t :
  match read_value r key (key_type_str_of py t) with
  | Ok v =>
      dict_get (record_of py r key t) (lit "value") = Some v
      /\ dict_has (record_of py r key t) (lit "error") = false
  | Raise e =>
      dict_get (record_of py r key t) (lit "error") = Some (JStr (exn_msg e))
      /\ dict_has (record_of py r key t) (lit "value") = false
  end.
Proof.
  unfold record_of.
  destruct (read_value r key (key_type_str_of py t)); split; reflexivity.
Qed.

(** C3.  Every record that [_read_key_entry] returns is a dict with
    exactly one of the keys [value] and [error]. *)
Theorem value_xor_error py r key rec :
  _read_key_entry py r key = Ok rec ->
  exists d,
    rec = JObj d
    /\ xorb (dict_has d (lit "value")) (dict_has d (lit "error")) = true.
Proof.
  intro H. apply read_key_entry_inv in H as (t & Ht & ->).
  exists (record_of py r key t). split; [reflexivity|].
  pose proof (record_of_outcome py r key t) as O.
  destruct (read_value r key (key_type_str_of py t));
    destruct O as [O1 O2]; rewrite O2; unfold dict_has; rewrite O1;
    reflexivity.
Qed.

Lemma value_xor_error_witness :
  exists d,
    JObj (record_of py0 redis_hash_down k_config (TypeBytes (blit "hash")))
    = JObj d
    /\ xorb (dict_has d (lit "value")) (dict_has d (lit "error")) = true.
Proof.
  apply (value_xor_error py0 redis_hash_down k_config).
  reflexivity.
Defined.

(** ** Remaining lifetime *)

Lemma ttl_ms_of_null reply :
  ttl_ms_of reply = JNull
  <-> (exists e, reply = Raise e) \/ (exists p, reply = Ok p /\ (p < 0)%Z).
Proof.
  unfold ttl_ms_of. destruct reply as [p|e].
  - destruct (Z.ltb_spec p 0); split.
    + intros _. right. exists p. now split.
    + reflexivity.
    + discriminate.
    + intros [[e H']|[q [H' Hq]]]; [discriminate|]. inversion H'. lia.
  - split; [intros _; left; now exists e | reflexivity].
Qed.

Lemma ttl_ms_of_int reply p :
  ttl_ms_of reply = JInt p <-> reply = Ok p /\ (0 <= p)%Z.
Proof.
  unfold ttl_ms_of. destruct reply as [q|e].
  - destruct (Z.ltb_spec q 0); split.
    + discriminate.
    + intros [H' Hp]. inversion H'. lia.
    + intro H'. inversion H'. subst. now split.
    + intros [H' _]. now inversion H'.
  - split; [discriminate | intros [H' _]; discriminate].
Qed.

(** C6, as the code has it.  In every record [ttl_ms] is null exactly when
    the lifetime query fails or answers a negative number (the sentinels
    for "no expiry" and "no such key"), and it is the integer [p] exactly
    when the store answers [p >= 0]: zero included. *)
Theorem ttl_ms_mapping py r key d :
  _read_key_entry py r key = Ok (JObj d) ->
  (dict_get d (lit "ttl_ms") = Some JNull
   <-> (exists e, r_pttl r key = Raise e)
       \/ (exists p, r_pttl r key = Ok p /\ (p < 0)%Z))
  /\ (forall p, dict_get d (lit "ttl_ms") = Some (JInt p)
                <-> r_pttl r key = Ok p /\ (0 <= p)%Z).
Proof.
  intro H. apply read_key_entry_inv in H as (t & Ht & E).
  inversion E; subst d. rewrite record_of_ttl. split.
  - rewrite <- ttl_ms_of_null. split; congruence.
  - intro p. rewrite <- ttl_ms_of_int. split; congruence.
Qed.

Lemma ttl_ms_mapping_witness :
  (dict_get (record_of py0 redis0 k_session (TypeBytes (blit "string")))
            (lit "ttl_ms") = Some JNull
   <-> (exists e, r_pttl redis0 k_session = Raise e)
       \/ (exists p, r_pttl redis0 k_session = Ok p /\ (p < 0)%Z))
  /\ (forall p,
        dict_get (record_of py0 redis0 k_session (TypeBytes (blit "string")))
                 (lit "ttl_ms") = Some (JInt p)
        <-> r_pttl redis0 k_session = Ok p /\ (0 <= p)%Z).
Proof.
  apply (ttl_ms_mapping py0 redis0 k_session).
  reflexivity.
Defined.

(** C6 fails as worded: a key in its last millisecond answers 0, and the
    record carries [ttl_ms = 0] although no positive lifetime was
    reported. *)
Lemma ttl_zero_is_set : ~ stated_ttl_mapping.
Proof.
  intro C.
  destruct (C py0 redis_expiring k_session
              (record_of py0 redis_expiring k_session
                         (TypeBytes (blit "string"))) eq_refl)
    as [_ C2].
  destruct (C2 0%Z eq_refl) as [_ Hpos]. lia.
Qed.

(** ** The opaque fallback *)

Lemma read_value_unknown r key s :
  known_type s = false ->
  read_value r key s = (payload <- r_dump r key ;; Ok (dump_value payload)).
Proof.
  unfold known_type. rewrite !orb_false_iff.
  intros [[[[[H1 H2] H3] H4] H5] H6].
  unfold read_value. rewrite H1, H2, H3, H4, H5, H6.
  destruct (r_dump r key) as [[p|]|e]; cbn [bind]; try reflexivity.
  now rewrite b64_total.
Qed.

(** C4, as the code has it.  For a key whose reported type is none of the
    six known tags and whose [DUMP] request answers, the record's value is
    [{encoding: "redis-dump-base64", data: d}], where [d] is the base64
    text of the payload (decoding it gives the payload back), or null when
    the store returns no payload. *)
Theorem unknown_type_dump py r key t payload :
  r_type r key = Ok t ->
  known_type (key_type_str_of py t) = false ->
  r_dump r key = Ok payload ->
  exists d,
    _read_key_entry py r key = Ok (JObj d)
    /\ dict_get d (lit "value") = Some (dump_value payload)
    /\ dict_has d (lit "error") = false
    /\ forall p, payload = Some p ->
         exists data,
           dump_value payload
           = JObj [(lit "encoding", JStr (lit "redis-dump-base64"));
                   (lit "data", JStr data)]
           /\ Base64.b64decode data = Some p.
Proof.
  intros Ht Hk Hd. exists (record_of py r key t).
  split; [now apply read_key_entry_eq|].
  pose proof (record_of_outcome py r key t) as O.
  rewrite (read_value_unknown r key _ Hk), Hd in O. cbn [bind] in O.
  destruct O as [O1 O2]. repeat split; auto.
  intros p ->. exists (map bval (Base64.b64encode p)).
  split; [reflexivity | apply b64_roundtrip].
Qed.

Lemma unknown_type_dump_witness :
  exists d,
    _read_key_entry py0 redis0 k_module = Ok (JObj d)
    /\ dict_get d (lit "value") = Some (dump_value (Some [x00; x01; xff]))
    /\ dict_has d (lit "error") = false
    /\ forall p, Some [x00; x01; xff] = Some p ->
         exists data,
           dump_value (Some [x00; x01; xff])
           = JObj [(lit "encoding", JStr (lit "redis-dump-base64"));
                   (lit "data", JStr data)]
           /\ Base64.b64decode data = Some p.
Proof.
  apply (unknown_type_dump py0 redis0 k_module (TypeBytes (blit "ReJSON-RL")));
    reflexivity.
Defined.

(** C4 fails as worded: the tag written is ["redis-dump-base64"], not
    ["dump-base64"]. *)
Lemma dump_tag_differs : ~ stated_opaque_dump.
Proof.
  intro C.
  destruct (C py0 redis0 k_module (TypeBytes (blit "ReJSON-RL"))
              [x00; x01; xff] eq_refl eq_refl eq_refl)
    as (d & data & Hrec & Hval & _).
  rewrite (read_key_entry_eq py0 redis0 k_module _ eq_refl) in Hrec.
  inversion Hrec; subst d. vm_compute in Hval. discriminate Hval.
Qed.

(** ** Sets *)

Lemma read_value_set r key :
  read_value r key (lit "set")
  = (vals <- r_smembers r key ;; encode_list (py_sort bytes_leb vals)).
Proof. reflexivity. Qed.

Lemma bytes_sort_order_independent l1 l2 :
  Permutation l1 l2 -> py_sort bytes_leb l1 = py_sort bytes_leb l2.
Proof.
  apply py_sort_order_independent.
  - intros a b. apply bytes_leb_total.
  - intros a b c. apply bytes_leb_trans.
  - intros a b. apply bytes_leb_antisym.
Qed.

(** C7.  For a set-typed key whose members are retrieved, the value is the
    list of the encoded members in ascending raw-byte order: the sorted
    list is ordered, holds the same members, each element decodes to the
    member at its place; and any other retrieval order of the same members
    gives the same value. *)
Theorem set_members_sorted py r key t members :
  r_type r key = Ok t ->
  key_type_str_of py t = lit "set" ->
  r_smembers r key = Ok members ->
  let sorted := py_sort bytes_leb members in
  StronglySorted bytes_le sorted
  /\ Permutation members sorted
  /\ (exists d encs,
        _read_key_entry py r key = Ok (JObj d)
        /\ dict_get d (lit "value") = Some (JArr encs)
        /\ mapM (fun v => _encode_bytes (Some v)) sorted = Ok encs
        /\ map decode_encoded encs = map Some sorted)
  /\ (forall r' members',
        r_smembers r' key = Ok members' ->
        Permutation members members' ->
        read_value r' key (lit "set") = read_value r key (lit "set")).
Proof.
  intros Ht Hs Hm sorted. split; [|split; [|split]].
  - apply py_sort_sorted.
    + intros a b. apply bytes_leb_total.
    + intros a b c. apply bytes_leb_trans.
  - apply py_sort_perm.
  - exists (record_of py r key t), (map encoded_bytes sorted).
    split; [now apply read_key_entry_eq|].
    pose proof (record_of_outcome py r key t) as O.
    rewrite Hs, read_value_set, Hm in O. cbn [bind] in O.
    rewrite encode_list_eq in O. destruct O as [O1 _].
    split; [exact O1|]. split.
    + apply mapM_total, encode_bytes_eq.
    + rewrite map_map. apply map_ext. intro b. apply decode_encoded_bytes.
  - intros r' members' Hm' P.
    rewrite !read_value_set, Hm, Hm'. cbn [bind].
    now rewrite (bytes_sort_order_independent _ _ P).
Qed.

Lemma set_members_sorted_witness :
  let sorted := py_sort bytes_leb [blit "b"; [xff]; blit "a"; blit "ab"] in
  StronglySorted bytes_le sorted
  /\ Permutation [blit "b"; [xff]; blit "a"; blit "ab"] sorted
  /\ (exists d encs,
        _read_key_entry py0 redis0 k_tags = Ok (JObj d)
        /\ dict_get d (lit "value") = Some (JArr encs)
        /\ mapM (fun v => _encode_bytes (Some v)) sorted = Ok encs
        /\ map decode_encoded encs = map Some sorted)
  /\ (forall r' members',
        r_smembers r' k_tags = Ok members' ->
        Permutation [blit "b"; [xff]; blit "a"; blit "ab"] members' ->
        read_value r' k_tags (lit "set") = read_value redis0 k_tags (lit "set")).
Proof.
  apply (set_members_sorted py0 redis0 k_tags (TypeBytes (blit "set")));
    reflexivity.
Defined.

(** The members of [tags] come out as a, ab, b, 0xff whatever the order
    they are retrieved in. *)
Example set_sample :
  read_value redis0 k_tags (lit "set")
  = Ok (JArr [encoded "utf-8" (JStr (lit "a"));
              encoded "utf-8" (JStr (lit "ab"));
              encoded "utf-8" (JStr (lit "b"));
              encoded "base64" (JStr (lit "/w=="))])
  /\ read_value redis_shuffled k_tags (lit "set")
     = read_value redis0 k_tags (lit "set").
Proof. split; reflexivity. Qed.

(** ** Per-key failures *)

(** C2, as the code has it.  For every key whose type query succeeds,
    [_read_key_entry] returns a record, whatever else fails: an exception
    while retrieving the value is recorded as that key's [error] (its
    message) with no [value]; a retrieved value is stored with no [error];
    an exception while querying the lifetime is swallowed, leaving [ttl_ms]
    null.  And when the type query succeeds for every scanned key, the loop
    returns exactly these records, one per key, in scan order. *)
Theorem value_failure_isolated py r :
  (forall key t,
     r_type r key = Ok t ->
     exists d,
       _read_key_entry py r key = Ok (JObj d)
       /\ dict_get d (lit "key") = Some (encoded_bytes key)
       /\ match read_value r key (key_type_str_of py t) with
          | Ok v =>
              dict_get d (lit "value") = Some v
              /\ dict_has d (lit "error") = false
          | Raise e =>
              dict_get d (lit "error") = Some (JStr (exn_msg e))
              /\ dict_has d (lit "value") = false
          end
       /\ (forall e, r_pttl r key = Raise e ->
                     dict_get d (lit "ttl_ms") = Some JNull))
  /\ (forall keys,
        (forall k, In k keys -> exists t, r_type r k = Ok t) ->
        exists recs,
          read_entries py r keys = Ok recs
          /\ Forall2 (fun k rec => _read_key_entry py r k = Ok rec)
                     keys recs).
Proof.
  split.
  - intros key t Ht. exists (record_of py r key t).
    split; [now apply read_key_entry_eq|].
    split; [apply record_of_key|].
    split; [apply record_of_outcome|].
    intros e He. rewrite record_of_ttl, He. reflexivity.
  - unfold read_entries.
    induction keys as [|k ks IH]; intro H.
    + exists []. split; [reflexivity | constructor].
    + destruct (H k (or_introl eq_refl)) as [t Ht].
      destruct IH as (recs & Hrecs & HF).
      { intros k' Hk'. apply H. now right. }
      exists (JObj (record_of py r k t) :: recs). split.
      * cbn [mapM]. rewrite (read_key_entry_eq py r k t Ht), Hrecs.
        reflexivity.
      * constructor; [now apply read_key_entry_eq | exact HF].
Qed.

Lemma value_failure_isolated_witness :
  exists recs,
    read_entries py0 redis_hash_down [k_session; k_config; k_tags] = Ok recs
    /\ Forall2 (fun k rec => _read_key_entry py0 redis_hash_down k = Ok rec)
               [k_session; k_config; k_tags] recs.
Proof.
  apply (proj2 (value_failure_isolated py0 redis_hash_down)).
  intros k Hk. simpl in Hk.
  destruct Hk as [<-|[<-|[<-|[]]]]; eexists; reflexivity.
Defined.

(** The second key of the sample fails in [HGETALL]: its record carries
    the error, and the keys around it are exported as usual. *)
Example hash_failure_sample :
  exists r1 v1 r3 v3,
    read_entries py0 redis_hash_down [k_session; k_config; k_tags]
    = Ok [JObj r1;
          JObj [(lit "key", utf8_obj (lit "config:x"));
                (lit "type", JStr (lit "hash"));
                (lit "ttl_ms", JNull);
                (lit "error", JStr (exn_msg wrong_type))];
          JObj r3]
    /\ dict_get r1 (lit "value") = Some v1
    /\ dict_get r3 (lit "value") = Some v3.
Proof. do 4 eexists. repeat split; reflexivity. Qed.

(** C2 fails as worded: when the lifetime query raises, the exception is
    swallowed; the record carries the value and no [error]. *)
Lemma lifetime_failure_not_recorded : ~ stated_per_key_isolation.
Proof.
  intro C.
  destruct (C py0 redis_pttl_down k_session conn_lost) as (d & Hrec & He & _).
  { right. left. reflexivity. }
  rewrite (read_key_entry_eq py0 redis_pttl_down k_session _ eq_refl) in Hrec.
  inversion Hrec; subst d. vm_compute in He. discriminate He.
Qed.

(** The type query is made outside every [try]: when it raises, the loop
    over the keys stops with that exception. *)
Example type_failure_propagates :
  read_entries py0 redis_type_down [k_session; k_config] = Raise conn_lost.
Proof. reflexivity. Qed.

(** ** The session-key pattern *)

Section Re_facts.
Import Re.

Lemma k_eol_eq s cap : k_eol s cap = if at_eol s then Some cap else None.
Proof. reflexivity. Qed.

Lemma at_eol_spec tail : at_eol tail = true <-> tail = [] \/ tail = [newline].
Proof.
  destruct tail as [|c [|d t]]; simpl.
  - split; auto.
  - rewrite N.eqb_eq. split.
    + intros ->. now right.
    + intros [H|H]; [discriminate | now inversion H].
  - split; [discriminate | intros [H|H]; discriminate].
Qed.

Lemma greedy_eol s :
  forall acc r,
    greedy k_eol s acc = Some r
    <-> exists body tail,
          s = body ++ tail /\ body <> [] /\ ~ In newline body
          /\ at_eol tail = true /\ r = Some (acc ++ body).
Proof.
  induction s as [|x s IH]; intros acc r; cbn [greedy].
  - split; [discriminate|].
    intros (body & tail & E & Hne & _).
    destruct body; [contradiction | discriminate].
  - destruct (N.eqb_spec x newline) as [->|Hx].
    { split; [discriminate|].
      intros (body & tail & E & Hne & Hnl & _).
      destruct body as [|y body]; [contradiction|].
      inversion E; subst. exfalso. apply Hnl. now left. }
    destruct (greedy k_eol s (acc ++ [x])) as [r'|] eqn:G.
    + apply IH in G as (body & tail & -> & Hne & Hnl & Heol & ->).
      split.
      * intro H. inversion H; subst r.
        exists (x :: body), tail. repeat split; auto.
        -- discriminate.
        -- intros [H1|H1]; [now apply Hx | now apply Hnl].
        -- now rewrite <- app_assoc.
      * intros (body2 & tail2 & E & Hne2 & Hnl2 & Heol2 & ->).
        destruct body2 as [|y [|z b2]]; [contradiction| |].
        -- exfalso. inversion E; subst.
           apply at_eol_spec in Heol2.
           destruct body as [|c body]; [contradiction|].
           destruct Heol2 as [H2|H2]; [discriminate|].
           inversion H2; subst. apply Hnl. now left.
        -- inversion E; subst y.
           assert (G2 : greedy k_eol (body ++ tail) (acc ++ [x])
                        = Some (Some ((acc ++ [x]) ++ z :: b2))).
           { apply IH. exists (z :: b2), tail2. repeat split; auto.
             - discriminate.
             - intro Hin. apply Hnl2. now right. }
           assert (G1 : greedy k_eol (body ++ tail) (acc ++ [x])
                        = Some (Some ((acc ++ [x]) ++ body))).
           { apply IH. exists body, tail. repeat split; auto. }
           rewrite G1 in G2. injection G2 as E2.
           rewrite E2, <- app_assoc. reflexivity.
    + rewrite k_eol_eq. split.
      * destruct (at_eol s) eqn:Heol; [|discriminate].
        intro H. inversion H; subst r.
        exists [x], s. repeat split; auto.
        -- discriminate.
        -- intros [H1|[]]. now apply Hx.
      * intros (body2 & tail2 & E & Hne2 & Hnl2 & Heol2 & ->).
        destruct body2 as [|y [|z b2]]; [contradiction| |].
        -- inversion E; subst. now rewrite Heol2.
        -- exfalso. inversion E; subst y.
           assert (G2 : greedy k_eol s (acc ++ [x])
                        = Some (Some ((acc ++ [x]) ++ z :: b2))).
           { apply IH. exists (z :: b2), tail2. repeat split; auto.
             - discriminate.
             - intro Hin. apply Hnl2. now right. }
           congruence.
Qed.

Lemma match_group_tail b s cap :
  match_here [GroupAnyPlus; Eol] b s cap = greedy k_eol s [].
Proof. reflexivity. Qed.

Lemma match_chars pre :
  forall b s cap r,
    match_here (map Chr pre ++ [GroupAnyPlus; Eol]) b s cap = Some r
    <-> exists s', s = pre ++ s' /\ greedy k_eol s' [] = Some r.
Proof.
  induction pre as [|c pre IH]; intros b s cap r.
  - cbn [map app]. rewrite match_group_tail. split.
    + intro H. now exists s.
    + intros (s' & -> & H). exact H.
  - cbn [map app match_here]. destruct s as [|x s].
    + split; [discriminate | intros (s' & E & _); discriminate].
    + destruct (N.eqb_spec x c) as [->|Hx].
      * rewrite IH. split; intros (s' & E & H); exists s'.
        -- split; [now rewrite E | exact H].
        -- split; [now inversion E | exact H].
      * split; [discriminate|].
        intros (s' & E & _). inversion E. contradiction.
Qed.

(** What [_SESSION_KEY_RE] matches and what its group holds. *)
Lemma session_key_match k sid :
  match_group _SESSION_KEY_RE k = Some sid
  <-> exists tail,
        k = session_prefix ++ sid ++ tail
        /\ sid <> [] /\ ~ In newline sid
        /\ (tail = [] \/ tail = [newline]).
Proof.
  unfold match_group, _SESSION_KEY_RE.
  cbn [app match_here].
  split.
  - destruct (match_here _ true k None) as [[g|]|] eqn:E;
      try discriminate.
    intro H. inversion H; subst g.
    apply match_chars in E as (s' & -> & G).
    apply greedy_eol in G as (body & tail & -> & Hne & Hnl & Heol & Hr).
    inversion Hr; subst sid. cbn [app].
    exists tail. repeat split; auto. now apply at_eol_spec.
  - intros (tail & -> & Hne & Hnl & Ht).
    assert (E : match_here (map Chr session_prefix ++ [GroupAnyPlus; Eol])
                  true (session_prefix ++ sid ++ tail) None
                = Some (Some sid)).
    { apply match_chars. exists (sid ++ tail). split; [reflexivity|].
      apply greedy_eol. exists sid, tail. repeat split; auto.
      now apply at_eol_spec. }
    now rewrite E.
Qed.
End Re_facts.

(** ** The filter *)

Lemma is_str_spec v s :
  is_str v s = true <-> v = Some (JStr (lit s)).
Proof.
  unfold is_str. destruct v as [[| | | |x| |]|]; try (split; discriminate).
  rewrite pystr_eqb_eq. split; [now intros -> | intro H; now inversion H].
Qed.

Lemma get_utf8_value_spec entry raw :
  _get_utf8_value_string entry = Some raw <-> has_utf8_value entry raw.
Proof.
  unfold _get_utf8_value_string, has_utf8_value. split.
  - destruct (dict_get entry (lit "value")) as [[| | | | | |v]|];
      try discriminate.
    destruct (dict_get v (lit "data")) as [[| | | |data| |]|] eqn:D;
      try discriminate.
    destruct (is_str _ "utf-8") eqn:E; [|discriminate].
    intro H. inversion H; subst data.
    exists v. apply is_str_spec in E. auto.
  - intros (v & -> & E & ->).
    apply is_str_spec in E. now rewrite E.
Qed.

Lemma In_firstn_nth {A} (x : A) n :
  forall l, In x (firstn n l)
            <-> exists i, (i < n)%nat /\ nth_error l i = Some x.
Proof.
  induction n as [|n IH]; intros l.
  - simpl. split; [contradiction | intros (i & Hi & _); lia].
  - destruct l as [|y l]; simpl.
    + split; [contradiction|]. intros (i & _ & H). now destruct i.
    + rewrite IH. split.
      * intros [->|(i & Hi & H)].
        -- exists 0%nat. split; [lia | reflexivity].
        -- exists (S i). split; [lia | exact H].
      * intros ([|i] & Hi & H).
        -- left. now inversion H.
        -- right. exists i. split; [lia | exact H].
Qed.

Lemma filter_nonempty {A} (f : A -> bool) l :
  (1 <= List.length (filter f l))%nat <-> exists x, In x l /\ f x = true.
Proof.
  induction l as [|y l IH]; simpl.
  - split; [lia | intros (x & [] & _)].
  - destruct (f y) eqn:E; simpl.
    + split; [intros _; exists y; auto | lia].
    + rewrite IH. split.
      * intros (x & Hx & Hf). exists x. auto.
      * intros (x & [->|Hx] & Hf); [congruence | exists x; auto].
Qed.

Lemma is_message_spec item :
  is_message item = true
  <-> exists d, item = JObj d /\ dict_has d (lit "role") = true
                /\ dict_has d (lit "content") = true.
Proof.
  destruct item; simpl;
    try (split; [discriminate | intros (d' & H & _); discriminate]).
  rewrite andb_true_iff. split.
  - intros [H1 H2]. exists d. auto.
  - intros (d' & H & H1 & H2). inversion H; subst. auto.
Qed.

Lemma looks_like_conversation_spec conv :
  _looks_like_conversation conv = true <-> conversation_shaped conv.
Proof.
  unfold conversation_shaped. split.
  - destruct conv as [| | | | |l|]; try discriminate.
    destruct l as [|x l]; [discriminate|].
    unfold _looks_like_conversation. rewrite Nat.leb_le, filter_nonempty.
    intros (y & Hy & Hm).
    apply In_firstn_nth in Hy as (i & Hi & Hn).
    apply is_message_spec in Hm as (d & -> & H1 & H2).
    exists (x :: l). repeat split; [discriminate|].
    exists i, d. auto.
  - intros (l & -> & Hne & i & item & Hi & Hn & H1 & H2).
    destruct l as [|x l]; [contradiction|].
    unfold _looks_like_conversation. rewrite Nat.leb_le, filter_nonempty.
    exists (JObj item). split.
    + apply In_firstn_nth. exists i. auto.
    + apply is_message_spec. exists item. auto.
Qed.

(** C5, as the code has it.  A record yields a pair [(sid, conv)] exactly
    when its key string is ["chat:session_"], then [sid], then nothing or
    one final newline, with [sid] non-empty and free of newlines; its value
    is a UTF-8 [EncodedBytes] whose text [json.loads] parses to [conv]; and
    [conv] is a non-empty list with a role/content mapping among its first
    ten elements. *)
Theorem classify_emit_iff py entry sid conv :
  classify py (JObj entry) = Emit sid conv
  <-> exists tail raw,
        _get_key_string entry = Some (session_prefix ++ sid ++ tail)
        /\ sid <> [] /\ ~ In Re.newline sid
        /\ (tail = [] \/ tail = [Re.newline])
        /\ has_utf8_value entry raw
        /\ json_loads py raw = Ok conv
        /\ conversation_shaped conv.
Proof.
  unfold classify. split.
  - destruct (_get_key_string entry) as [[|c k]|] eqn:K; try discriminate.
    destruct (Re.match_group _SESSION_KEY_RE (c :: k)) as [sid'|] eqn:M;
      [|discriminate].
    destruct (_get_utf8_value_string entry) as [raw|] eqn:V; [|discriminate].
    destruct (json_loads py raw) as [parsed|e] eqn:J; [|discriminate].
    destruct (_looks_like_conversation parsed) eqn:L; [|discriminate].
    intro H. inversion H; subst sid' parsed.
    apply session_key_match in M as (tail & E & Hne & Hnl & Ht).
    exists tail, raw. rewrite <- E.
    repeat split; auto.
    + now apply get_utf8_value_spec.
    + now apply looks_like_conversation_spec.
  - intros (tail & raw & K & Hne & Hnl & Ht & V & J & L).
    rewrite K.
    assert (M : Re.match_group _SESSION_KEY_RE
                  (session_prefix ++ sid ++ tail) = Some sid).
    { apply session_key_match. exists tail. auto. }
    apply get_utf8_value_spec in V.
    apply looks_like_conversation_spec in L.
    remember (session_prefix ++ sid ++ tail) as k eqn:Ek.
    destruct k as [|c k]; [discriminate Ek|].
    now rewrite M, V, J, L.
Qed.

(** C5 fails as worded: the key ["chat:session_a\nb"] has the prefix and a
    conversation-shaped value, yet no pair is emitted, because [.] does
    not match a newline. *)
Lemma session_id_with_newline_dropped : ~ stated_filter_rule.
Proof.
  intro C.
  assert (H : classify py0 (JObj entry_two_lines)
              = Emit (lit "a" ++ nl ++ lit "b") conv_json).
  { apply C. split; [discriminate|]. split; [reflexivity|].
    exists conv_text. split; [|split].
    - exists [(lit "encoding", JStr (lit "utf-8"));
              (lit "data", JStr conv_text)].
      repeat split; reflexivity.
    - reflexivity.
    - exists [JObj [(lit "role", JStr (lit "user"));
                    (lit "content", JStr (lit "hi"))]].
      split; [reflexivity|]. split; [discriminate|].
      exists 0%nat, [(lit "role", JStr (lit "user"));
                     (lit "content", JStr (lit "hi"))].
      repeat split; try reflexivity. lia. }
  vm_compute in H. discriminate H.
Qed.

Lemma filter_main_entries py doc es :
  db0_entries doc = Some es ->
  filter_main py doc = Wrote (fold_left (step py) es tally0).
Proof.
  unfold db0_entries, filter_main, get_default.
  destruct doc as [| | | | | |d]; try discriminate.
  destruct (dict_get d (lit "db")) as [[| | | | | |db]|]; try discriminate.
  cbn [bind].
  destruct (dict_get db (lit "0")) as [[| | | | | |db0]|]; try discriminate.
  cbn [bind].
  destruct (dict_get db0 (lit "entries")) as [[| | | | |l|]|];
    try discriminate.
  intro H. now inversion H.
Qed.

(** C8.  Two documents with the same list at [db/0/entries] give the same
    result: the same output array and the same counters, whatever else
    either document holds. *)
Theorem filter_reads_db0_only py doc1 doc2 es :
  db0_entries doc1 = Some es ->
  db0_entries doc2 = Some es ->
  filter_main py doc1 = filter_main py doc2
  /\ (exists t, filter_main py doc1 = Wrote t).
Proof.
  intros H1 H2.
  rewrite (filter_main_entries py doc1 es H1).
  rewrite (filter_main_entries py doc2 es H2).
  split; [reflexivity | eexists; reflexivity].
Qed.

Lemma filter_reads_db0_only_witness :
  filter_main py0 (doc_of [JObj entry_abc] [])
  = filter_main py0
      (doc_of [JObj entry_abc]
              [(lit "1", JObj [(lit "entries", JArr [JObj entry_two_lines])])])
  /\ (exists t, filter_main py0 (doc_of [JObj entry_abc] []) = Wrote t).
Proof.
  apply (filter_reads_db0_only py0 _ _ [JObj entry_abc]); reflexivity.
Defined.

(** ** The process supervisor *)

Lemma teardown_run os s :
  exists s',
    teardown os s = (s', Ok tt)
    /\ trace s' = trace s ++ teardown_events os
    /\ tmp_exists s' = tmp_exists s
    /\ written s' = written s
    /\ (proc s' = Running -> exists e, os_kill os = Raise e).
Proof.
  unfold teardown, teardown_events, try_except, poll, terminate, wait, kill,
    bindM, emit, liftR, set_proc, ret.
  destruct (os_poll os) as [[c|]|e]; cbn [trace proc tmp_exists written];
    [ | destruct (os_terminate os) as [[]|e1];
        [destruct (os_wait os) as [c|e2]|] | ];
    try (destruct (os_kill os) as [[]|e3] eqn:K);
    cbn [trace proc tmp_exists written];
    eexists; (split; [reflexivity|]);
    cbn [trace proc tmp_exists written];
    rewrite <- ?app_assoc; repeat split; try reflexivity;
    try discriminate; intros _; eexists; reflexivity.
Qed.

Ltac run_export :=
  unfold final_state, failure_of, returns, export_rdb_to_json, with_tempdir,
    _start_redis_for_rdb, _redis_server_version, try_finally, bindB, liftM,
    liftO, bindM, emit, liftR, raiseM, ret, set_tmp, set_proc;
  cbn [st0 trace proc tmp_exists written fst snd app negb].

Lemma pystr_nonempty_eqb (v : pystr) : v <> [] -> pystr_eqb v [] = false.
Proof.
  intro Hv. destruct (pystr_eqb v []) eqn:E; [|reflexivity].
  apply pystr_eqb_eq in E. contradiction.
Qed.

(** An export either spawns the server or ends early, with nothing in its
    trace but the first steps. *)
Lemma spawn_or_early py os :
  (exists ver, spawns py os ver)
  \/ (forall ev,
        In ev (trace (final_state py os)) ->
        In ev early_events /\ (ev = EvPopen -> os_popen os <> Ok tt)).
Proof.
  unfold early_events.
  destruct (os_exists os) eqn:He.
  2:{ right. run_export. rewrite He. cbn [negb fst trace].
      intros ev Hin. split; [simpl in *; tauto|].
      intros ->. simpl in Hin. intuition discriminate. }
  destruct (os_pick_port os) as [port|e] eqn:Hp.
  2:{ right. run_export. rewrite He, Hp. cbn [negb fst trace].
      intros ev Hin. split; [simpl in *; tauto|].
      intros ->. simpl in Hin. intuition discriminate. }
  destruct (os_run_version os) as [out|e] eqn:Hv.
  2:{ right. run_export. rewrite He, Hp, Hv.
      destruct (exn_class e); cbn [negb fst trace];
        intros ev Hin; (split; [simpl in *; tauto|]);
        intros ->; simpl in Hin; intuition discriminate. }
  destruct (pystr_eqb (str_strip py out) []) eqn:Hs.
  { right. run_export. rewrite He, Hp, Hv, Hs. cbn [negb fst trace].
    intros ev Hin. split; [simpl in *; tauto|].
    intros ->. simpl in Hin. intuition discriminate. }
  destruct (os_mkdtemp os) as [tmp|e] eqn:Hm.
  2:{ right. run_export. rewrite He, Hp, Hv, Hs, Hm. cbn [negb fst trace].
      intros ev Hin. split; [simpl in *; tauto|].
      intros ->. simpl in Hin. intuition discriminate. }
  destruct (os_copy2 os) as [[]|e] eqn:Hc.
  2:{ right. run_export. rewrite He, Hp, Hv, Hs, Hm, Hc.
      destruct (os_rmtree os) as [[]|e']; cbn [negb fst trace];
        intros ev Hin; (split; [simpl in *; tauto|]);
        intros ->; simpl in Hin; intuition discriminate. }
  destruct (os_popen os) as [[]|e] eqn:Hpo.
  2:{ right. run_export. rewrite He, Hp, Hv, Hs, Hm, Hc, Hpo.
      destruct (os_rmtree os) as [[]|e']; cbn [negb fst trace];
        intros ev Hin; (split; [simpl in *; tauto|]);
        intros _; discriminate. }
  left. exists (str_strip py out).
  repeat split; auto; try (eexists; eauto; fail).
  intro E. rewrite E in Hs. discriminate Hs.
Qed.

(** An export that spawns the server: when the body of the [try] blocks,
    so does the export, there and then; otherwise the teardown runs, the
    removal of the directory is attempted, and its outcome decides between
    the body's result and its own exception. *)
Lemma export_spawned py os ver :
  spawns py os ver ->
  match export_body py os ver spawned_state with
  | (s2, None) => export_rdb_to_json py os st0 = (s2, None)
  | (s2, Some r2) =>
      exists s3,
        teardown os s2 = (s3, Ok tt)
        /\ trace s3 = trace s2 ++ teardown_events os
        /\ written s3 = written s2
        /\ tmp_exists s3 = tmp_exists s2
        /\ (proc s3 = Running -> exists e, os_kill os = Raise e)
        /\ export_rdb_to_json py os st0
           = (after_cleanup os s3, Some (cleanup_outcome os r2))
  end.
Proof.
  intros (He & [port Hp] & (out & Hv & Hs) & Hne & [tmp Hm] & Hc & Hpo).
  run_export. rewrite He, Hp, Hv, Hs, (pystr_nonempty_eqb ver Hne).
  cbn [negb]. rewrite Hm, Hc, Hpo.
  cbn [trace proc tmp_exists written app].
  change (mkSt [EvExists; EvPickPort; EvVersion; EvMkdtemp; EvCopy; EvPopen]
               Running true None) with spawned_state.
  destruct (export_body py os ver spawned_state) as [s2 [r2|]];
    [|reflexivity].
  destruct (teardown_run os s2) as (s3 & Ht & Htr & Htm & Hw & Hk).
  exists s3. rewrite Ht.
  split; [reflexivity|]. split; [exact Htr|]. split; [exact Hw|].
  split; [exact Htm|]. split; [exact Hk|].
  unfold after_cleanup, cleanup_outcome.
  destruct (os_rmtree os) as [[]|e]; reflexivity.
Qed.

(** *** The readiness wait *)

Lemma st_eta s : mkSt (trace s) (proc s) (tmp_exists s) (written s) = s.
Proof. now destruct s. Qed.

Lemma ready_loop_timeout pings :
  Forall (fun p => is_ready p = false) pings ->
  forall last s,
    ready_loop pings last s
    = (mkSt (trace s ++ probe_events pings) (proc s) (tmp_exists s)
            (written s),
       Raise (not_ready
                (fold_left (fun acc p => match p with
                                         | Raise e => Some e
                                         | Ok _ => acc
                                         end) pings last))).
Proof.
  induction 1 as [|p rest Hp Hrest IH]; intros last s.
  - cbn [ready_loop probe_events flat_map fold_left]. unfold raiseM.
    now rewrite app_nil_r, st_eta.
  - cbn [ready_loop probe_events flat_map fold_left].
    unfold bindM, emit. cbn [trace proc tmp_exists written].
    destruct p as [[|]|e]; [discriminate Hp| |];
      cbn [trace proc tmp_exists written];
      rewrite IH; cbn [trace proc tmp_exists written];
      rewrite <- !app_assoc; reflexivity.
Qed.

Lemma ready_loop_first pre post :
  Forall (fun p => is_ready p = false) pre ->
  forall last s,
    ready_loop (pre ++ Ok true :: post) last s
    = (mkSt (trace s ++ probe_events pre ++ [EvPing]) (proc s)
            (tmp_exists s) (written s),
       Ok tt).
Proof.
  induction 1 as [|p rest Hp Hrest IH]; intros last s.
  - cbn [app ready_loop probe_events flat_map].
    unfold bindM, emit, ret. reflexivity.
  - cbn [app ready_loop probe_events flat_map].
    unfold bindM, emit. cbn [trace proc tmp_exists written].
    destruct p as [[|]|e]; [discriminate Hp| |];
      cbn [trace proc tmp_exists written];
      rewrite IH; cbn [trace proc tmp_exists written];
      rewrite <- !app_assoc; reflexivity.
Qed.

Lemma not_ready_or_split (l : list (res bool)) :
  Forall (fun p => is_ready p = false) l
  \/ exists pre post,
       l = pre ++ Ok true :: post
       /\ Forall (fun p => is_ready p = false) pre.
Proof.
  induction l as [|p l IH]; [left; constructor|].
  destruct (is_ready p) eqn:E.
  - right. exists [], l. split; [|constructor].
    destruct p as [[|]|e]; try discriminate. reflexivity.
  - destruct IH as [Hl|(pre & post & -> & Hl)].
    + left. now constructor.
    + right. exists (p :: pre), post. split; [reflexivity | now constructor].
Qed.

(** *** The body of the [try] *)

(** No probe is answered: the handler runs. *)
Lemma export_body_timeout py os ver s :
  Forall (fun p => is_ready p = false) (os_pings os) ->
  export_body py os ver s
  = (mkSt (trace s ++ probe_events (os_pings os) ++ diag_events os)
          (diag_proc os (proc s)) (tmp_exists s) (written s),
     startup_outcome os ver).
Proof.
  intro Hn. unfold export_body, bindB, try_except_b, liftM,
    _wait_for_redis_ready.
  rewrite (ready_loop_timeout _ Hn).
  unfold startup_failure, poll, bindB, try_except_b, liftM, liftO, bindM,
    emit, liftR, raiseM, ret, set_proc, startup_outcome, startup_error,
    diagnostics, diag_events, diag_proc.
  cbn [trace proc tmp_exists written].
  destruct (os_poll_diag os) as [[c|]|e];
    cbn [trace proc tmp_exists written];
    try destruct (os_read_streams os) as [[oe|e']|];
    cbn [trace proc tmp_exists written fst snd];
    rewrite <- ?app_assoc; reflexivity.
Qed.

Lemma startup_outcome_returns os ver :
  diagnostics_return os ->
  startup_outcome os ver = Some (Raise (startup_error os ver)).
Proof.
  unfold startup_outcome, diagnostics_return.
  intros [[e He]|Hr].
  - now rewrite He.
  - destruct (os_poll_diag os); [|reflexivity].
    destruct (os_read_streams os); [reflexivity | contradiction].
Qed.

(** A probe is answered: the work runs, and nothing blocks. *)
Lemma export_body_ready py os ver s pre post :
  os_pings os = pre ++ Ok true :: post ->
  Forall (fun p => is_ready p = false) pre ->
  export_body py os ver s
  = (fst (export_work py os ver
            (mkSt (trace s ++ probe_events pre ++ [EvPing]) (proc s)
                  (tmp_exists s) (written s))),
     Some (snd (export_work py os ver
                  (mkSt (trace s ++ probe_events pre ++ [EvPing]) (proc s)
                        (tmp_exists s) (written s))))).
Proof.
  intros Hp Hpre. unfold export_body, bindB, try_except_b, liftM,
    _wait_for_redis_ready.
  rewrite Hp, (ready_loop_first pre post Hpre).
  now destruct (export_work py os ver _).
Qed.

Lemma export_work_run py os ver s :
  tmp_exists (fst (export_work py os ver s)) = tmp_exists s
  /\ (In EvWrite (trace (fst (export_work py os ver s))) ->
      In EvWrite (trace s)
      \/ exists db,
           export_dbs py (os_server os) []
                      (_collect_db_indexes py (os_server os)) = Ok db).
Proof.
  unfold export_work, bindM, emit, liftR, set_written.
  cbn [trace proc tmp_exists written].
  destruct (export_dbs py (os_server os) [] _) as [db|e].
  - split; [|intros _; right; now exists db].
    cbn [trace proc tmp_exists written].
    now destruct (os_write os) as [[]|e].
  - cbn [fst trace tmp_exists]. split; [reflexivity|].
    rewrite in_app_iff. intros [Hin|Hin]; [now left|].
    simpl in Hin. intuition discriminate.
Qed.


(** *** Leaving the call *)



(** The whole of a successful export. *)
Example export_ok_trace :
  trace (final_state py0 os_ok)
  = [EvExists; EvPickPort; EvVersion; EvMkdtemp; EvCopy; EvPopen;
     EvPing; EvSleep; EvPing; EvQuery; EvWrite;
     EvPoll; EvTerminate; EvWait 5; EvRmtree]
  /\ proc (final_state py0 os_ok) = Exited
  /\ tmp_exists (final_state py0 os_ok) = false
  /\ snd (export_rdb_to_json py0 os_ok st0) = Some (Ok tt).
Proof. repeat split; reflexivity. Qed.

(** A server that could not load the snapshot has exited by the time of
    the teardown: it is polled and gets no signal. *)
Example export_too_old_trace :
  trace (final_state py0 os_too_old)
  = [EvExists; EvPickPort; EvVersion; EvMkdtemp; EvCopy; EvPopen;
     EvPing; EvSleep; EvPing; EvSleep; EvPing; EvSleep;
     EvPoll; EvReadStreams; EvPoll; EvRmtree]
  /\ proc (final_state py0 os_too_old) = Exited.
Proof. split; reflexivity. Qed.


(** ** The missing executable *)

(** C9, as the code has it.  When the snapshot exists, a port is found and
    the version probe cannot find the executable, the export raises a
    [RuntimeError] naming the executable after the probe and nothing else:
    no directory, no process, no liveness probe.  The start-up failure is a
    [RuntimeError] too; only the message tells the two apart. *)
Theorem missing_binary_fails_before_launch py os :
  os_exists os = true ->
  (exists port, os_pick_port os = Ok port) ->
  binary_missing os ->
  failure_of py os
  = Some (mkExn RuntimeError (could_not_run (os_redis_server os)))
  /\ trace (final_state py os) = [EvExists; EvPickPort; EvVersion]
  /\ proc (final_state py os) = NotSpawned
  /\ (forall e, is_startup_failure e ->
                exn_class e = RuntimeError
                /\ exn_msg e <> could_not_run (os_redis_server os)).
Proof.
  intros He [port Hport] (x & Hx & Hc).
  run_export. rewrite He, Hport, Hx, Hc.
  cbn [negb fst snd trace proc].
  repeat split.
  - destruct H as (ver & out & err & ->). reflexivity.
  - destruct H as (ver & out & err & ->). discriminate.
Qed.

Lemma missing_binary_fails_before_launch_witness :
  failure_of py0 os_no_binary
  = Some (mkExn RuntimeError (could_not_run (os_redis_server os_no_binary)))
  /\ trace (final_state py0 os_no_binary) = [EvExists; EvPickPort; EvVersion]
  /\ proc (final_state py0 os_no_binary) = NotSpawned
  /\ (forall e, is_startup_failure e ->
                exn_class e = RuntimeError
                /\ exn_msg e <> could_not_run (os_redis_server os_no_binary)).
Proof.
  apply (missing_binary_fails_before_launch py0 os_no_binary).
  - reflexivity.
  - eexists; reflexivity.
  - exists no_such_file. split; reflexivity.
Defined.

(** C9 fails as worded: the missing executable and the readiness timeout
    raise the same exception class. *)
Lemma missing_binary_same_class : ~ stated_missing_binary_class.
Proof.
  intro C.
  apply (C py0 os_no_binary os_too_old
           (mkExn RuntimeError (could_not_run (os_redis_server os_no_binary)))
           (mkExn RuntimeError
              (failed_to_start (lit "Redis server v=5.0.7")
                 (lit "Can't handle RDB format version 12") []))).
  - exists no_such_file. split; reflexivity.
  - reflexivity.
  - reflexivity.
  - eexists _, _, _. reflexivity.
  - reflexivity.
Qed.

(** ** Sample runs of the filter *)

(** The three shapes of a session key: plain, with a final newline (left
    out of the id), and with a newline inside (no match). *)
Example session_key_samples :
  Re.match_group _SESSION_KEY_RE (lit "chat:session_abc") = Some (lit "abc")
  /\ Re.match_group _SESSION_KEY_RE (lit "chat:session_abc" ++ nl)
     = Some (lit "abc")
  /\ Re.match_group _SESSION_KEY_RE (session_prefix ++ lit "a" ++ nl ++ lit "b")
     = None
  /\ Re.match_group _SESSION_KEY_RE session_prefix = None.
Proof. repeat split; reflexivity. Qed.

(** One session record and one unrelated hash record: one pair written,
    one record counted as not a session key. *)
Example filter_sample :
  filter_main py0
    (doc_of [JObj entry_abc;
             JObj [(lit "key", utf8_obj (lit "config:x"));
                   (lit "type", JStr (lit "hash"));
                   (lit "ttl_ms", JNull);
                   (lit "value", JArr [])]] [])
  = Wrote (mkTally [JObj [(lit "session_id", JStr (lit "abc"));
                          (lit "conversation", conv_json)]]
                   0 0 1 0).
Proof. reflexivity. Qed.

(** The records of the sample database, as exported. *)
Example export_sample :
  export_dbs py0 server0 [] (_collect_db_indexes py0 server0)
  = Ok [(lit "0",
         JObj [(lit "entries",
                JArr [JObj [(lit "key", utf8_obj (lit "chat:session_abc"));
                            (lit "type", JStr (lit "string"));
                            (lit "ttl_ms", JInt 60000);
                            (lit "value", utf8_obj conv_text)];
                      JObj [(lit "key", utf8_obj (lit "config:x"));
                            (lit "type", JStr (lit "hash"));
                            (lit "ttl_ms", JNull);
                            (lit "value",
                             JArr [JObj [(lit "field", utf8_obj (lit "mode"));
                                         (lit "value",
                                          encoded "base64"
                                                  (JStr (lit "/wA=")))]])]])])].
Proof. vm_compute. reflexivity. Qed.

(* ================================================================== *)
(** * Further properties of the code *)

(** ** The encoders again *)

Lemma decode_ascii_text (b : bytes) :
  forallb (fun x => bval x <? 128) b = true ->
  Utf8.decode b = Some (map bval b).
Proof.
  induction b as [|x t IH]; [reflexivity|].
  cbn [forallb map]. rewrite andb_true_iff. intros [Hx Ht].
  cbn [Utf8.decode]. cbv zeta. rewrite Hx, (IH Ht). reflexivity.
Qed.

(** X1.  A byte string that holds only ASCII is encoded as ["utf-8"] and
    its [data] is the same characters, one per byte. *)
Theorem ascii_stays_text (b : bytes) :
  forallb (fun x => bval x <? 128) b = true ->
  _encode_bytes (Some b) = Ok (encoded "utf-8" (JStr (map bval b))).
Proof.
  intro H. rewrite encode_bytes_eq. unfold encoded_bytes.
  now rewrite (decode_ascii_text b H).
Qed.

Lemma ascii_stays_text_witness :
  _encode_bytes (Some k_config)
  = Ok (encoded "utf-8" (JStr (map bval k_config))).
Proof. apply (ascii_stays_text k_config). reflexivity. Defined.

Lemma b64encode_length (data : bytes) :
  List.length (Base64.b64encode data)
  = (4 * ((List.length data + 2) / 3))%nat.
Proof.
  induction data as [|a|a b|a b c l IH] using list_ind3;
    try reflexivity.
  cbn [Base64.b64encode Base64.quad app List.length]. rewrite IH.
  replace (S (S (S (List.length l))) + 2)%nat
    with ((List.length l + 2) + 1 * 3)%nat by lia.
  rewrite Nat.div_add by discriminate. lia.
Qed.

(** X2.  [_b64] never raises: it returns an ASCII text of
    4 * ceil(n / 3) characters for n bytes, and decoding that text gives
    the bytes back. *)
Theorem b64_text_lossless (data : bytes) :
  exists s,
    _b64 data = Ok s
    /\ Base64.b64decode s = Some data
    /\ List.length s = (4 * ((List.length data + 2) / 3))%nat
    /\ Forall (fun c => c < 128) s.
Proof.
  exists (map bval (Base64.b64encode data)).
  split; [apply b64_total|].
  split; [apply b64_roundtrip|].
  split; [rewrite length_map; apply b64encode_length|].
  pose proof (b64encode_ascii data) as H.
  rewrite forallb_forall in H.
  apply Forall_forall. intros c Hc.
  apply in_map_iff in Hc as (x & <- & Hx).
  apply N.ltb_lt. now apply H.
Qed.

(** X3.  The fallback of [_encode_key] is never taken: a key, the empty
    one included, is encoded exactly as [_encode_bytes] encodes it, and
    decodes back to itself. *)
Theorem encode_key_lossless (key : bytes) :
  _encode_key key = _encode_bytes (Some key)
  /\ exists eb, _encode_key key = Ok eb /\ decode_encoded eb = Some key.
Proof.
  rewrite encode_key_eq, encode_bytes_eq. split; [reflexivity|].
  exists (encoded_bytes key). split; [reflexivity|].
  apply decode_encoded_bytes.
Qed.

(** ** Records, type by type *)

Lemma record_of_keys py r key t :
  exists last,
    map fst (record_of py r key t)
    = [lit "key"; lit "type"; lit "ttl_ms"; last]
    /\ (last = lit "value" \/ last = lit "error").
Proof.
  unfold record_of.
  destruct (read_value r key (key_type_str_of py t));
    eexists; (split; [reflexivity|]); auto.
Qed.

(** X4.  Every record returned by [_read_key_entry] has exactly four
    keys, in this order: [key], [type], [ttl_ms], and then [value] or
    [error]; [type] is the decoded type reply, and [key] decodes back to
    the raw key. *)
Theorem record_layout py r key rec :
  _read_key_entry py r key = Ok rec ->
  exists d t last,
    rec = JObj d
    /\ r_type r key = Ok t
    /\ map fst d = [lit "key"; lit "type"; lit "ttl_ms"; last]
    /\ (last = lit "value" \/ last = lit "error")
    /\ dict_get d (lit "type") = Some (JStr (key_type_str_of py t))
    /\ exists eb, dict_get d (lit "key") = Some eb
                  /\ decode_encoded eb = Some key.
Proof.
  intro H. apply read_key_entry_inv in H as (t & Ht & ->).
  destruct (record_of_keys py r key t) as (last & Hk & Hl).
  exists (record_of py r key t), t, last.
  repeat split; auto.
  exists (encoded_bytes key). split; [reflexivity|].
  apply decode_encoded_bytes.
Qed.

Lemma record_layout_witness :
  exists d t last,
    JObj (record_of py0 redis0 k_session (TypeBytes (blit "string"))) = JObj d
    /\ r_type redis0 k_session = Ok t
    /\ map fst d = [lit "key"; lit "type"; lit "ttl_ms"; last]
    /\ (last = lit "value" \/ last = lit "error")
    /\ dict_get d (lit "type") = Some (JStr (key_type_str_of py0 t))
    /\ exists eb, dict_get d (lit "key") = Some eb
                  /\ decode_encoded eb = Some k_session.
Proof. apply (record_layout py0 redis0 k_session). reflexivity. Defined.

(** The value a record carries when its retrieval succeeds. *)
Lemma record_value py r key t v :
  r_type r key = Ok t ->
  read_value r key (key_type_str_of py t) = Ok v ->
  exists d,
    _read_key_entry py r key = Ok (JObj d)
    /\ dict_get d (lit "value") = Some v
    /\ dict_has d (lit "error") = false.
Proof.
  intros Ht Hv. exists (record_of py r key t).
  split; [now apply read_key_entry_eq|].
  pose proof (record_of_outcome py r key t) as O.
  now rewrite Hv in O.
Qed.

(** X5.  For a string-typed key whose [GET] answers, the record has no
    [error]; its [value] decodes back to the bytes returned, and is null
    when the store returns nothing. *)
Theorem string_value_lossless py r key t reply :
  r_type r key = Ok t ->
  key_type_str_of py t = lit "string" ->
  r_get r key = Ok reply ->
  exists d v,
    _read_key_entry py r key = Ok (JObj d)
    /\ dict_get d (lit "value") = Some v
    /\ dict_has d (lit "error") = false
    /\ match reply with
       | Some b => decode_encoded v = Some b
       | None => v = JNull
       end.
Proof.
  intros Ht Hs Hg.
  assert (Hv : read_value r key (key_type_str_of py t)
               = Ok (match reply with
                     | Some b => encoded_bytes b
                     | None => JNull
                     end)).
  { rewrite Hs. change (read_value r key (lit "string"))
      with (v <- r_get r key ;; _encode_bytes v).
    rewrite Hg. cbn [bind]. destruct reply; [apply encode_bytes_eq|reflexivity]. }
  destruct (record_value py r key t _ Ht Hv) as (d & H1 & H2 & H3).
  exists d. eexists. repeat split; eauto.
  destruct reply; [apply decode_encoded_bytes | reflexivity].
Qed.

Lemma string_value_lossless_witness :
  exists d v,
    _read_key_entry py0 redis0 k_session = Ok (JObj d)
    /\ dict_get d (lit "value") = Some v
    /\ dict_has d (lit "error") = false
    /\ decode_encoded v = Some (map mkbyte conv_text).
Proof.
  apply (string_value_lossless py0 redis0 k_session
           (TypeBytes (blit "string")) (Some (map mkbyte conv_text)));
    reflexivity.
Defined.

(** X6.  For a list-typed key whose [LRANGE] answers, the [value] is a
    list with one encoded element per list element, in the order of the
    list, repetitions kept; each decodes back to its element. *)
Theorem list_value_in_order py r key t vals :
  r_type r key = Ok t ->
  key_type_str_of py t = lit "list" ->
  r_lrange r key = Ok vals ->
  exists d encs,
    _read_key_entry py r key = Ok (JObj d)
    /\ dict_get d (lit "value") = Some (JArr encs)
    /\ dict_has d (lit "error") = false
    /\ map decode_encoded encs = map Some vals.
Proof.
  intros Ht Hs Hl.
  assert (Hv : read_value r key (key_type_str_of py t)
               = Ok (JArr (map encoded_bytes vals))).
  { rewrite Hs. change (read_value r key (lit "list"))
      with (vals <- r_lrange r key ;; encode_list vals).
    rewrite Hl. cbn [bind]. apply encode_list_eq. }
  destruct (record_value py r key t _ Ht Hv) as (d & H1 & H2 & H3).
  exists d, (map encoded_bytes vals). repeat split; auto.
  rewrite map_map. apply map_ext. intro b. apply decode_encoded_bytes.
Qed.

Lemma list_value_in_order_witness :
  exists d encs,
    _read_key_entry py0 redis_queue k_jobs = Ok (JObj d)
    /\ dict_get d (lit "value") = Some (JArr encs)
    /\ dict_has d (lit "error") = false
    /\ map decode_encoded encs = map Some [blit "one"; [xff]; blit "one"].
Proof.
  apply (list_value_in_order py0 redis_queue k_jobs (TypeBytes (blit "list")));
    reflexivity.
Defined.

Lemma field_pair_eq fv :
  field_pair fv
  = Ok (JObj [(lit "field", encoded_bytes (fst fv));
              (lit "value", encoded_bytes (snd fv))]).
Proof. unfold field_pair. now rewrite !encode_bytes_eq. Qed.

Lemma decode_field_pair_eq fv :
  decode_field_pair (JObj [(lit "field", encoded_bytes (fst fv));
                           (lit "value", encoded_bytes (snd fv))])
  = Some fv.
Proof.
  unfold decode_field_pair.
  change (dict_get _ (lit "field")) with (Some (encoded_bytes (fst fv))).
  change (dict_get _ (lit "value")) with (Some (encoded_bytes (snd fv))).
  cbv beta iota. rewrite !decode_encoded_bytes. now destruct fv.
Qed.

(** X7.  For a hash-typed key whose [HGETALL] answers, the [value] is a
    list of [{field, value}] objects, one per pair and in the order the
    pairs are iterated; each reads back as its pair. *)
Theorem hash_value_in_order py r key t m :
  r_type r key = Ok t ->
  key_type_str_of py t = lit "hash" ->
  r_hgetall r key = Ok m ->
  exists d pairs,
    _read_key_entry py r key = Ok (JObj d)
    /\ dict_get d (lit "value") = Some (JArr pairs)
    /\ dict_has d (lit "error") = false
    /\ map decode_field_pair pairs = map Some m.
Proof.
  intros Ht Hs Hm.
  set (enc := fun fv : bytes * bytes =>
                JObj [(lit "field", encoded_bytes (fst fv));
                      (lit "value", encoded_bytes (snd fv))]).
  assert (Hv : read_value r key (key_type_str_of py t)
               = Ok (JArr (map enc m))).
  { rewrite Hs. change (read_value r key (lit "hash"))
      with (m <- r_hgetall r key ;; l <- mapM field_pair m ;; Ok (JArr l)).
    rewrite Hm. cbn [bind].
    now rewrite (mapM_total field_pair enc) by apply field_pair_eq. }
  destruct (record_value py r key t _ Ht Hv) as (d & H1 & H2 & H3).
  exists d, (map enc m). repeat split; auto.
  rewrite map_map. apply map_ext. intro fv. apply decode_field_pair_eq.
Qed.

Lemma hash_value_in_order_witness :
  exists d pairs,
    _read_key_entry py0 redis0 k_config = Ok (JObj d)
    /\ dict_get d (lit "value") = Some (JArr pairs)
    /\ dict_has d (lit "error") = false
    /\ map decode_field_pair pairs = map Some [(blit "mode", [xff; x00])].
Proof.
  apply (hash_value_in_order py0 redis0 k_config (TypeBytes (blit "hash")));
    reflexivity.
Defined.

Lemma member_score_eq ms :
  member_score ms
  = Ok (JObj [(lit "member", encoded_bytes (fst ms));
              (lit "score", JFloat (snd ms))]).
Proof. unfold member_score. now rewrite encode_bytes_eq. Qed.

(** X8.  For a zset-typed key whose [ZRANGE] answers, the [value] is a
    list of [{member, score}] objects in the order of the reply; each
    member decodes back and each score is passed through untouched. *)
Theorem zset_value_in_order py r key t vals :
  r_type r key = Ok t ->
  key_type_str_of py t = lit "zset" ->
  r_zrange r key = Ok vals ->
  exists d elems,
    _read_key_entry py r key = Ok (JObj d)
    /\ dict_get d (lit "value") = Some (JArr elems)
    /\ dict_has d (lit "error") = false
    /\ map decode_member_score elems = map Some vals.
Proof.
  intros Ht Hs Hz.
  set (enc := fun ms : bytes * Z =>
                JObj [(lit "member", encoded_bytes (fst ms));
                      (lit "score", JFloat (snd ms))]).
  assert (Hv : read_value r key (key_type_str_of py t)
               = Ok (JArr (map enc vals))).
  { rewrite Hs. change (read_value r key (lit "zset"))
      with (vals <- r_zrange r key ;; l <- mapM member_score vals ;;
            Ok (JArr l)).
    rewrite Hz. cbn [bind].
    now rewrite (mapM_total member_score enc) by apply member_score_eq. }
  destruct (record_value py r key t _ Ht Hv) as (d & H1 & H2 & H3).
  exists d, (map enc vals). repeat split; auto.
  rewrite map_map. apply map_ext. intros [m s].
  unfold enc, decode_member_score.
  change (dict_get _ (lit "member")) with (Some (encoded_bytes m)).
  change (dict_get _ (lit "score")) with (Some (JFloat s)).
  cbv beta iota. cbn [fst snd]. now rewrite decode_encoded_bytes.
Qed.

Lemma zset_value_in_order_witness :
  exists d elems,
    _read_key_entry py0 redis_queue k_board = Ok (JObj d)
    /\ dict_get d (lit "value") = Some (JArr elems)
    /\ dict_has d (lit "error") = false
    /\ map decode_member_score elems
       = map Some [(blit "a", 4607182418800017408%Z);
                   ([x00; xfe], 4612811918334230528%Z)].
Proof.
  apply (zset_value_in_order py0 redis_queue k_board (TypeBytes (blit "zset")));
    reflexivity.
Defined.

(** X29.  A stream-typed key with at least one entry never gets a
    [value]: the client returns the fields of an entry as a dict, the loop
    [for f, v in fields] walks its keys, and the first key either does not
    unpack into two items or unpacks into two ints, on which
    [_encode_bytes] fails.  The record carries that exception's message as
    its [error]. *)
Theorem stream_entry_fails py r key t b k v fs rest :
  r_type r key = Ok t ->
  key_type_str_of py t = lit "stream" ->
  r_xrange r key = Ok ((SBytes b, (k, v) :: fs) :: rest) ->
  exists d,
    _read_key_entry py r key = Ok (JObj d)
    /\ dict_get d (lit "error") = Some (JStr (exn_msg (stream_field_error k)))
    /\ dict_has d (lit "value") = false.
Proof.
  intros Ht Hs Hx.
  assert (Hv : read_value r key (key_type_str_of py t)
               = Raise (stream_field_error k)).
  { rewrite Hs. change (read_value r key (lit "stream"))
      with (items <- r_xrange r key ;; l <- mapM stream_item items ;;
            Ok (JArr l)).
    rewrite Hx. cbn [bind mapM]. unfold stream_item at 1.
    cbn [fst snd _encode_scalar]. rewrite encode_bytes_eq.
    cbn [bind mapM fst]. unfold field_pair_of_key, stream_field_error,
      _encode_bytes_int.
    destruct (unpack_pair k) as [fv|e]; reflexivity. }
  exists (record_of py r key t).
  split; [now apply read_key_entry_eq|].
  pose proof (record_of_outcome py r key t) as O.
  now rewrite Hv in O.
Qed.

Lemma stream_entry_fails_witness :
  exists d,
    _read_key_entry py0 redis_stream k_events = Ok (JObj d)
    /\ dict_get d (lit "error")
       = Some (JStr (exn_msg (stream_field_error (blit "user"))))
    /\ dict_has d (lit "value") = false.
Proof.
  apply (stream_entry_fails py0 redis_stream k_events
           (TypeBytes (blit "stream")) (blit "1700000000000-0")
           (blit "user") (blit "ann") [(blit "op", blit "login")] []);
    reflexivity.
Defined.

(** The error of the sample stream, as it is written. *)
Example stream_sample :
  _read_key_entry py0 redis_stream k_events
  = Ok (JObj [(lit "key", utf8_obj (lit "events"));
              (lit "type", JStr (lit "stream"));
              (lit "ttl_ms", JNull);
              (lit "error",
               JStr (lit "too many values to unpack (expected 2)"))]).
Proof. reflexivity. Qed.

(** ** The loop over the keys *)

Lemma read_entries_total py r keys :
  (forall k, In k keys -> exists t, r_type r k = Ok t) ->
  exists recs,
    read_entries py r keys = Ok recs
    /\ List.length recs = List.length keys.
Proof.
  unfold read_entries. induction keys as [|k ks IH]; intro H.
  - exists []. split; reflexivity.
  - destruct (H k (or_introl eq_refl)) as [t Ht].
    destruct IH as (recs & Hr & Hl); [intros k' Hk'; apply H; now right|].
    exists (JObj (record_of py r k t) :: recs).
    cbn [mapM]. rewrite (read_key_entry_eq py r k t Ht), Hr.
    split; [reflexivity | simpl; now rewrite Hl].
Qed.

(** X9.  The type query is outside every [try]: when it raises for one
    scanned key, the loop over the keys ends with that exception, whatever
    the records already built and the keys still to come. *)
Theorem type_failure_aborts py r pre k post e :
  (forall k', In k' pre -> exists t, r_type r k' = Ok t) ->
  r_type r k = Raise e ->
  read_entries py r (pre ++ k :: post) = Raise e.
Proof.
  unfold read_entries. induction pre as [|k0 pre IH]; intros H He.
  - cbn [app mapM]. unfold _read_key_entry. now rewrite He.
  - destruct (H k0 (or_introl eq_refl)) as [t Ht].
    cbn [app mapM]. rewrite (read_key_entry_eq py r k0 t Ht). cbn [bind].
    rewrite IH; [reflexivity | intros k' Hk'; apply H; now right | exact He].
Qed.

Lemma type_failure_aborts_witness :
  read_entries py0 redis_one_bad ([k_session] ++ k_config :: [k_tags])
  = Raise conn_lost.
Proof.
  apply (type_failure_aborts py0 redis_one_bad [k_session] k_config [k_tags]).
  - intros k' [<-|[]]. eexists. reflexivity.
  - reflexivity.
Defined.

Lemma dict_get_set_same d k v : dict_get (dict_set d k v) k = Some v.
Proof.
  induction d as [|[k' v'] t IH]; simpl.
  - now rewrite pystr_eqb_refl.
  - destruct (pystr_eqb k' k) eqn:E; simpl; now rewrite E.
Qed.

Lemma dict_get_set_other d k k' v :
  k' <> k -> dict_get (dict_set d k v) k' = dict_get d k'.
Proof.
  intro Hne. induction d as [|[k0 v0] t IH]; simpl.
  - destruct (pystr_eqb k k') eqn:E; [|reflexivity].
    apply pystr_eqb_eq in E. congruence.
  - destruct (pystr_eqb k0 k) eqn:E; simpl.
    + apply pystr_eqb_eq in E. subst k0.
      destruct (pystr_eqb k k') eqn:E'; [|reflexivity].
      apply pystr_eqb_eq in E'. congruence.
    + now rewrite IH.
Qed.

(** X10.  When the database can be selected and scanned and every type
    query answers, one turn of the loop over the databases stores, under
    the key [str(dbi)], an [entries] list with one record per scanned key,
    and leaves the other databases of the result as they were. *)
Theorem export_db_entries py srv db dbi keys :
  srv_select srv dbi = Ok tt ->
  _scan_keys (srv_scan srv dbi) = Ok keys ->
  (forall k, In k keys -> exists t, r_type (srv_db srv dbi) k = Ok t) ->
  exists recs db',
    export_db py srv db dbi = Ok db'
    /\ read_entries py (srv_db srv dbi) keys = Ok recs
    /\ List.length recs = List.length keys
    /\ dict_get db' (str_of_Z dbi) = Some (JObj [(lit "entries", JArr recs)])
    /\ forall k, k <> str_of_Z dbi -> dict_get db' k = dict_get db k.
Proof.
  intros Hs Hk Ht.
  destruct (read_entries_total py (srv_db srv dbi) keys Ht) as (recs & Hr & Hl).
  exists recs. eexists.
  unfold export_db. rewrite Hs, Hk. cbn [bind]. rewrite Hr. cbn [bind].
  split; [reflexivity|]. split; [reflexivity|]. split; [exact Hl|].
  split; [apply dict_get_set_same|].
  intros k Hne. now apply dict_get_set_other.
Qed.

Lemma export_db_entries_witness :
  exists recs db',
    export_db py0 server0 [] 0 = Ok db'
    /\ read_entries py0 (srv_db server0 0) [k_session; k_config] = Ok recs
    /\ List.length recs = List.length [k_session; k_config]
    /\ dict_get db' (str_of_Z 0) = Some (JObj [(lit "entries", JArr recs)])
    /\ forall k, k <> str_of_Z 0 -> dict_get db' k = dict_get [] k.
Proof.
  apply (export_db_entries py0 server0 [] 0%Z [k_session; k_config]).
  - reflexivity.
  - reflexivity.
  - intros k [<-|[<-|[]]]; eexists; reflexivity.
Defined.

(** ** Database discovery *)

Lemma Zleb_total a b : Z.leb a b = true \/ Z.leb b a = true.
Proof. destruct (Z.leb_spec a b); [now left | right; apply Z.leb_le; lia]. Qed.

Lemma Zleb_trans a b c :
  Z.leb a b = true -> Z.leb b c = true -> Z.leb a c = true.
Proof. rewrite !Z.leb_le. lia. Qed.

Lemma sorted_nodup_strict (l : list Z) :
  StronglySorted (fun a b => Z.leb a b = true) l -> NoDup l ->
  StronglySorted Z.lt l.
Proof.
  induction 1 as [|x t Hs IH Hx]; intro Hn; [constructor|].
  inversion Hn as [|? ? Hnot Hn']; subst.
  constructor; [now apply IH|].
  rewrite Forall_forall in *. intros y Hy.
  specialize (Hx y Hy). apply Z.leb_le in Hx.
  assert (x <> y) by (intros ->; contradiction). lia.
Qed.

Lemma sorted_set_strict dbs : StronglySorted Z.lt (sorted_set dbs).
Proof.
  unfold sorted_set. apply sorted_nodup_strict.
  - apply py_sort_sorted; [apply Zleb_total | apply Zleb_trans].
  - eapply Permutation_NoDup; [apply py_sort_perm | apply NoDup_nodup].
Qed.

Lemma sorted_set_In dbs n : In n (sorted_set dbs) <-> In n dbs.
Proof.
  unfold sorted_set. rewrite <- (nodup_In Z.eq_dec dbs n). split.
  - apply Permutation_in, Permutation_sym, py_sort_perm.
  - apply Permutation_in, py_sort_perm.
Qed.

(** X11.  [_collect_db_indexes] never returns an empty list; what it
    returns is strictly ascending (sorted, no duplicates); and when the
    keyspace summary cannot be fetched it is [[0]]. *)
Theorem db_indexes_ascending py srv :
  _collect_db_indexes py srv <> []
  /\ StronglySorted Z.lt (_collect_db_indexes py srv)
  /\ (forall e, srv_info srv = Raise e -> _collect_db_indexes py srv = [0%Z]).
Proof.
  unfold _collect_db_indexes.
  destruct (srv_info srv) as [info|e0]; cbn [bind].
  - destruct (collect_keys py [] info) as [dbs|e1].
    + pose proof (sorted_set_strict dbs) as S.
      destruct (sorted_set dbs) as [|x l].
      * split; [discriminate|]. split; [repeat constructor | discriminate].
      * split; [discriminate|]. split; [exact S | discriminate].
    + split; [discriminate|]. split; [repeat constructor | discriminate].
  - split; [discriminate|]. split; [repeat constructor | reflexivity].
Qed.

Lemma collect_keys_parsed py ks :
  only_value_errors py ks ->
  forall acc, collect_keys py acc ks = Ok (acc ++ parsed_indexes py ks).
Proof.
  induction ks as [|k ks IH]; intros H acc.
  - simpl. now rewrite app_nil_r.
  - assert (Hks : only_value_errors py ks)
      by (intros s e Hin; apply H; now right).
    cbn [collect_keys parsed_indexes flat_map].
    unfold collect_key, parsed_index. destruct k as [s|].
    + destruct (starts_with (lit "db") s) eqn:Hsw.
      * destruct (py_int py (skipn 2 s)) as [n|e] eqn:Hi; cbn [bind].
        -- rewrite (IH Hks). now rewrite <- app_assoc.
        -- rewrite (H s e (or_introl eq_refl) Hsw Hi). cbn [bind app].
           apply (IH Hks).
      * cbn [bind app]. apply (IH Hks).
    + cbn [bind app]. apply (IH Hks).
Qed.

(** X12.  When the keyspace summary is fetched and its keys fail to parse
    only with [ValueError], the databases returned are exactly the numbers
    spelt by the keys that start with ["db"]; when there is none, the
    result is database 0 alone. *)
Theorem db_indexes_members py srv ks :
  srv_info srv = Ok ks ->
  only_value_errors py ks ->
  forall n,
    In n (_collect_db_indexes py srv)
    <-> In n (parsed_indexes py ks)
        \/ (n = 0%Z /\ parsed_indexes py ks = []).
Proof.
  intros Hi Hv n. unfold _collect_db_indexes.
  rewrite Hi. cbn [bind]. rewrite (collect_keys_parsed py ks Hv). cbn [app].
  destruct (sorted_set (parsed_indexes py ks)) as [|x l] eqn:E.
  - assert (Hnil : parsed_indexes py ks = []).
    { destruct (parsed_indexes py ks) as [|y t] eqn:P; [reflexivity|].
      assert (In y (sorted_set (y :: t)))
        by (apply sorted_set_In; now left).
      rewrite E in H. contradiction. }
    rewrite Hnil. simpl. split.
    + intros [<-|[]]. right. now split.
    + intros [[]|[-> _]]. now left.
  - rewrite <- E, sorted_set_In. split.
    + intro H. now left.
    + intros [H|[_ Hnil]]; [exact H|].
      rewrite Hnil in E. discriminate E.
Qed.

Lemma db_indexes_members_witness :
  In 0%Z (_collect_db_indexes py0 server0)
  <-> In 0%Z (parsed_indexes py0 [InfoStr (lit "db0")])
      \/ (0%Z = 0%Z /\ parsed_indexes py0 [InfoStr (lit "db0")] = []).
Proof.
  apply (db_indexes_members py0 server0 [InfoStr (lit "db0")]).
  - reflexivity.
  - intros s e [H|[]] _. inversion H; subst s. discriminate.
Defined.

(** ** Waiting for the server *)

(** X13.  The readiness wait returns at the first probe answered with
    true: every probe before it is followed by a sleep, the answered one is
    not, and no later probe is sent. *)
Theorem ready_stops_at_first_answer os pre post s :
  os_pings os = pre ++ Ok true :: post ->
  Forall (fun p => is_ready p = false) pre ->
  _wait_for_redis_ready os s
  = (mkSt (trace s ++ probe_events pre ++ [EvPing]) (proc s) (tmp_exists s)
          (written s),
     Ok tt).
Proof.
  intros Hp Hpre. unfold _wait_for_redis_ready. rewrite Hp.
  now apply ready_loop_first.
Qed.

Lemma ready_stops_at_first_answer_witness :
  _wait_for_redis_ready os_ok spawned_state
  = (mkSt (trace spawned_state ++ probe_events [Raise conn_lost] ++ [EvPing])
          (proc spawned_state) (tmp_exists spawned_state)
          (written spawned_state),
     Ok tt).
Proof.
  apply (ready_stops_at_first_answer os_ok [Raise conn_lost] []).
  - reflexivity.
  - repeat constructor.
Defined.

(** X14.  When no probe is answered with true before the deadline, the
    wait makes one probe and one sleep per turn and raises a
    [RuntimeError] whose message ends with the last exception a probe
    raised (or [None]). *)
Theorem ready_times_out os s :
  Forall (fun p => is_ready p = false) (os_pings os) ->
  _wait_for_redis_ready os s
  = (mkSt (trace s ++ probe_events (os_pings os)) (proc s) (tmp_exists s)
          (written s),
     Raise (not_ready (last_error (os_pings os)))).
Proof.
  intro H. unfold _wait_for_redis_ready, last_error.
  now apply ready_loop_timeout.
Qed.

Lemma ready_times_out_witness :
  _wait_for_redis_ready os_too_old spawned_state
  = (mkSt (trace spawned_state ++ probe_events (os_pings os_too_old))
          (proc spawned_state) (tmp_exists spawned_state)
          (written spawned_state),
     Raise (not_ready (last_error (os_pings os_too_old)))).
Proof.
  apply (ready_times_out os_too_old). repeat constructor.
Defined.

(** ** Failures before the spawn *)

(** X15.  When the snapshot file does not exist the export raises
    [FileNotFoundError] carrying the path, before anything else is tried:
    no port, no version probe, no directory, no process. *)
Theorem missing_snapshot_fails_first py os :
  os_exists os = false ->
  failure_of py os = Some (mkExn FileNotFoundError (os_rdb_path os))
  /\ trace (final_state py os) = [EvExists]
  /\ proc (final_state py os) = NotSpawned.
Proof. intro H. run_export. rewrite H. repeat split. Qed.

Lemma missing_snapshot_fails_first_witness :
  failure_of py0 os_no_snapshot
  = Some (mkExn FileNotFoundError (os_rdb_path os_no_snapshot))
  /\ trace (final_state py0 os_no_snapshot) = [EvExists]
  /\ proc (final_state py0 os_no_snapshot) = NotSpawned.
Proof. apply (missing_snapshot_fails_first py0 os_no_snapshot). reflexivity. Defined.

(** X16.  An executable that runs but prints nothing but white space
    for [--version] is reported like a missing one: the same
    [RuntimeError], before the directory and the process exist. *)
Theorem blank_version_counts_as_missing py os out :
  os_exists os = true ->
  (exists port, os_pick_port os = Ok port) ->
  os_run_version os = Ok out ->
  str_strip py out = [] ->
  failure_of py os
  = Some (mkExn RuntimeError (could_not_run (os_redis_server os)))
  /\ trace (final_state py os) = [EvExists; EvPickPort; EvVersion]
  /\ proc (final_state py os) = NotSpawned.
Proof.
  intros He [port Hp] Hv Hs. run_export. rewrite He, Hp, Hv, Hs.
  repeat split.
Qed.

Lemma blank_version_counts_as_missing_witness :
  failure_of py0 os_blank_version
  = Some (mkExn RuntimeError (could_not_run (os_redis_server os_blank_version)))
  /\ trace (final_state py0 os_blank_version) = [EvExists; EvPickPort; EvVersion]
  /\ proc (final_state py0 os_blank_version) = NotSpawned.
Proof.
  apply (blank_version_counts_as_missing py0 os_blank_version []);
    try reflexivity.
  eexists; reflexivity.
Defined.

(** X17.  Only [FileNotFoundError] is caught around the version probe:
    any other exception (an executable that may not be run, say) leaves
    the export unchanged, before the directory and the process exist. *)
Theorem probe_error_propagates py os e :
  os_exists os = true ->
  (exists port, os_pick_port os = Ok port) ->
  os_run_version os = Raise e ->
  exn_class e <> FileNotFoundError ->
  failure_of py os = Some e
  /\ trace (final_state py os) = [EvExists; EvPickPort; EvVersion]
  /\ proc (final_state py os) = NotSpawned.
Proof.
  intros He [port Hp] Hv Hc. run_export. rewrite He, Hp, Hv.
  destruct (exn_class e); try (repeat split; fail). contradiction.
Qed.

Lemma probe_error_propagates_witness :
  failure_of py0 os_not_executable = Some permission_denied
  /\ trace (final_state py0 os_not_executable)
     = [EvExists; EvPickPort; EvVersion]
  /\ proc (final_state py0 os_not_executable) = NotSpawned.
Proof.
  apply (probe_error_propagates py0 os_not_executable permission_denied);
    try reflexivity.
  - eexists; reflexivity.
  - discriminate.
Defined.
(** ** After the spawn *)

(** X18.  Once the server is spawned, how the export ends is decided by
    the body of the [try] and by the removal of the directory, never by
    the teardown: when the body blocks, the export blocks; otherwise the
    export ends as the body did, unless the removal of the directory
    fails, in which case it raises the exception of the removal. *)
Theorem teardown_never_masks py os ver :
  spawns py os ver ->
  snd (export_rdb_to_json py os st0)
  = match snd (export_body py os ver spawned_state) with
    | None => None
    | Some r => Some (cleanup_outcome os r)
    end.
Proof.
  intro Hs. pose proof (export_spawned py os ver Hs) as E.
  destruct (export_body py os ver spawned_state) as [s2 [r2|]].
  - destruct E as (s3 & _ & _ & _ & _ & _ & E). now rewrite E.
  - now rewrite E.
Qed.

Lemma teardown_never_masks_witness :
  snd (export_rdb_to_json py0 os_ok st0)
  = match
      snd (export_body py0 os_ok (lit "Redis server v=7.2.4") spawned_state)
    with
    | None => None
    | Some r => Some (cleanup_outcome os_ok r)
    end.
Proof.
  apply (teardown_never_masks py0 os_ok).
  repeat split; try reflexivity; try discriminate; eexists; try reflexivity.
  split; reflexivity.
Defined.

(** X19.  When the server is spawned, no probe is answered, gathering
    the output of the process comes to an end and the directory can be
    removed, the export raises a [RuntimeError] whose message holds the
    version string and the captured output of the process (empty when
    reading it fails); the trace is the spawn, the probes, the diagnostics,
    the teardown and the removal of the directory, and nothing is
    written. *)
Theorem startup_failure_report py os ver :
  spawns py os ver ->
  Forall (fun p => is_ready p = false) (os_pings os) ->
  diagnostics_return os ->
  os_rmtree os = Ok tt ->
  failure_of py os
  = Some (mkExn RuntimeError
            (failed_to_start ver (snd (diagnostics os)) (fst (diagnostics os))))
  /\ trace (final_state py os)
     = spawn_events ++ probe_events (os_pings os) ++ diag_events os
       ++ teardown_events os ++ [EvRmtree]
  /\ written (final_state py os) = None.
Proof.
  intros Hs Hp Hd Hrm.
  pose proof (export_spawned py os ver Hs) as E.
  rewrite (export_body_timeout py os ver spawned_state Hp) in E.
  rewrite (startup_outcome_returns os ver Hd) in E.
  destruct E as (s3 & _ & Htr & Hw & _ & _ & E).
  unfold failure_of, final_state. rewrite E.
  unfold after_cleanup, cleanup_outcome, startup_error. rewrite Hrm.
  cbn [fst snd trace written].
  split; [reflexivity|]. split.
  - rewrite Htr. cbn [trace spawned_state].
    now rewrite <- !app_assoc.
  - now rewrite Hw.
Qed.

Lemma startup_failure_report_witness :
  failure_of py0 os_too_old
  = Some (mkExn RuntimeError
            (failed_to_start (lit "Redis server v=5.0.7")
               (snd (diagnostics os_too_old)) (fst (diagnostics os_too_old))))
  /\ trace (final_state py0 os_too_old)
     = spawn_events ++ probe_events (os_pings os_too_old)
       ++ diag_events os_too_old ++ teardown_events os_too_old ++ [EvRmtree]
  /\ written (final_state py0 os_too_old) = None.
Proof.
  apply (startup_failure_report py0 os_too_old).
  - repeat split; try reflexivity; try discriminate; eexists;
      try reflexivity.
    split; reflexivity.
  - repeat constructor.
  - right. discriminate.
  - reflexivity.
Defined.

(** X28.  The output of the process is read without a bound: when the
    server is spawned, no probe is answered, the poll of the handler works
    and the read never returns (a server that stays alive keeps its pipes
    open), the export never returns.  It stops after the probes, the poll
    and the read: no teardown, no removal of the directory, nothing
    written. *)
Theorem silent_server_blocks py os ver c :
  spawns py os ver ->
  Forall (fun p => is_ready p = false) (os_pings os) ->
  os_poll_diag os = Ok c ->
  os_read_streams os = None ->
  ~ returns py os
  /\ trace (final_state py os)
     = spawn_events ++ probe_events (os_pings os) ++ [EvPoll; EvReadStreams]
  /\ tmp_exists (final_state py os) = true
  /\ written (final_state py os) = None.
Proof.
  intros Hs Hp Hc Hr.
  pose proof (export_spawned py os ver Hs) as E.
  rewrite (export_body_timeout py os ver spawned_state Hp) in E.
  unfold startup_outcome, diag_events in E. rewrite Hc, Hr in E.
  unfold returns, final_state. rewrite E. cbn [fst snd trace tmp_exists written].
  split; [intro H; now apply H|].
  repeat split.
Qed.

Lemma silent_server_blocks_witness :
  ~ returns py0 os_loading
  /\ trace (final_state py0 os_loading)
     = spawn_events ++ probe_events (os_pings os_loading)
       ++ [EvPoll; EvReadStreams]
  /\ tmp_exists (final_state py0 os_loading) = true
  /\ written (final_state py0 os_loading) = None.
Proof.
  apply (silent_server_blocks py0 os_loading (lit "Redis server v=7.2.4") None).
  - repeat split; try reflexivity; try discriminate; eexists;
      try reflexivity.
    split; reflexivity.
  - repeat constructor.
  - reflexivity.
  - reflexivity.
Defined.

Lemma no_write_in_probes l : ~ In EvWrite (probe_events l).
Proof.
  induction l as [|p l IH]; simpl; [tauto|].
  intros [H|[H|H]]; [discriminate | discriminate | now apply IH].
Qed.

Lemma no_write_in_teardown os : ~ In EvWrite (teardown_events os).
Proof.
  unfold teardown_events.
  destruct (os_poll os) as [[c|]|e];
    [ | destruct (os_terminate os) as [[]|e1];
        [destruct (os_wait os) as [c|e2]|] | ];
    simpl; intuition discriminate.
Qed.

Lemma no_write_in_diag os : ~ In EvWrite (diag_events os).
Proof.
  unfold diag_events. destruct (os_poll_diag os); simpl; intuition discriminate.
Qed.

(** X20.  The destination is opened only at the end: if the export
    reaches the write, then every step up to the spawn worked, a probe was
    answered, and every database was read without an exception. *)
Theorem write_only_after_all_read py os :
  In EvWrite (trace (final_state py os)) ->
  exists ver db,
    spawns py os ver
    /\ In (Ok true) (os_pings os)
    /\ export_dbs py (os_server os) [] (_collect_db_indexes py (os_server os))
       = Ok db.
Proof.
  intro Hin.
  destruct (spawn_or_early py os) as [[ver Hs]|Hearly].
  2:{ destruct (Hearly EvWrite Hin) as [Hev _].
      unfold early_events in Hev. simpl in Hev. intuition discriminate. }
  assert (Hbody : In EvWrite
                     (trace (fst (export_body py os ver spawned_state)))).
  { pose proof (export_spawned py os ver Hs) as E.
    unfold final_state in Hin.
    destruct (export_body py os ver spawned_state) as [s2 [r2|]].
    - destruct E as (s3 & _ & Htr & _ & _ & _ & E). rewrite E in Hin.
      unfold after_cleanup in Hin. cbn [fst trace] in Hin.
      rewrite Htr in Hin. rewrite !in_app_iff in Hin.
      destruct Hin as [[H|H]|H].
      + exact H.
      + exfalso. now apply (no_write_in_teardown os).
      + simpl in H. intuition discriminate.
    - rewrite E in Hin. exact Hin. }
  destruct (not_ready_or_split (os_pings os))
    as [Hn|(pre & post & Hsplit & Hpre)].
  - exfalso.
    rewrite (export_body_timeout py os ver spawned_state Hn) in Hbody.
    cbn [fst trace] in Hbody. rewrite !in_app_iff in Hbody.
    destruct Hbody as [H|[H|H]].
    + simpl in H. intuition discriminate.
    + now apply (no_write_in_probes (os_pings os)).
    + now apply (no_write_in_diag os).
  - rewrite (export_body_ready py os ver spawned_state pre post Hsplit Hpre)
      in Hbody.
    cbn [fst] in Hbody.
    destruct (proj2 (export_work_run py os ver _) Hbody) as [H|[db Hdb]].
    + exfalso. cbn [trace] in H. rewrite !in_app_iff in H.
      destruct H as [H|[H|H]].
      * simpl in H. intuition discriminate.
      * now apply (no_write_in_probes pre).
      * simpl in H. intuition discriminate.
    + exists ver, db. split; [exact Hs|]. split; [|exact Hdb].
      rewrite Hsplit. apply in_or_app. right. now left.
Qed.

Lemma write_only_after_all_read_witness :
  exists ver db,
    spawns py0 os_ok ver
    /\ In (Ok true) (os_pings os_ok)
    /\ export_dbs py0 (os_server os_ok) []
         (_collect_db_indexes py0 (os_server os_ok)) = Ok db.
Proof.
  apply (write_only_after_all_read py0 os_ok). vm_compute. tauto.
Defined.
(** ** The filter's tallies *)

Lemma step_plus py t e : step py t e = tally_plus t (step py tally0 e).
Proof.
  unfold step, tally_plus.
  destruct t as [o s p n c];
    destruct (classify py e); cbn [out skipped parsed_fail not_session_key
    not_conversation tally0 app]; rewrite ?app_nil_r, ?Nat.add_0_r;
    f_equal; lia.
Qed.

Lemma tally_plus_assoc a b c :
  tally_plus (tally_plus a b) c = tally_plus a (tally_plus b c).
Proof.
  unfold tally_plus. cbn [out skipped parsed_fail not_session_key
    not_conversation]. rewrite <- app_assoc. f_equal; lia.
Qed.

Lemma tally_plus_zero a : tally_plus a tally0 = a.
Proof.
  destruct a as [o s p n c]. unfold tally_plus, tally0. cbn [out skipped parsed_fail
    not_session_key not_conversation]. rewrite app_nil_r, !Nat.add_0_r.
  reflexivity.
Qed.

Lemma fold_step_plus py es :
  forall t, fold_left (step py) es t = tally_plus t (tally_of py es).
Proof.
  unfold tally_of.
  induction es as [|e es IH]; intro t; cbn [fold_left].
  - now rewrite tally_plus_zero.
  - rewrite IH, (IH (step py tally0 e)), <- tally_plus_assoc.
    now rewrite <- step_plus.
Qed.

(** X21.  The filter handles entries one by one: the tally of two lists
    in sequence is the tally of the first followed by the tally of the
    second, outputs concatenated and counters added. *)
Theorem tally_additive py es1 es2 :
  tally_of py (es1 ++ es2) = tally_plus (tally_of py es1) (tally_of py es2).
Proof.
  unfold tally_of at 1. rewrite fold_left_app.
  fold (tally_of py es1). apply fold_step_plus.
Qed.

Lemma step_out py e : out (step py tally0 e) = emitted py e.
Proof. unfold step, emitted, pair_of. now destruct (classify py e). Qed.

Lemma step_accounted py e : accounted (step py tally0 e) = 1%nat.
Proof. unfold step, accounted. now destruct (classify py e). Qed.

Lemma accounted_plus a b :
  accounted (tally_plus a b) = (accounted a + accounted b)%nat.
Proof.
  unfold accounted, tally_plus. cbn [out skipped parsed_fail not_session_key
    not_conversation]. rewrite length_app. lia.
Qed.

Lemma tally_of_cons py e es :
  tally_of py (e :: es) = tally_plus (step py tally0 e) (tally_of py es).
Proof. unfold tally_of at 1. cbn [fold_left]. apply fold_step_plus. Qed.

Lemma tally_of_out py es : out (tally_of py es) = flat_map (emitted py) es.
Proof.
  induction es as [|e es IH]; [reflexivity|].
  rewrite tally_of_cons. cbn [tally_plus out flat_map].
  now rewrite step_out, IH.
Qed.

Lemma tally_of_accounted py es :
  accounted (tally_of py es) = List.length es.
Proof.
  induction es as [|e es IH]; [reflexivity|].
  rewrite tally_of_cons, accounted_plus, step_accounted, IH. reflexivity.
Qed.

(** X22.  Every entry of database 0 is accounted for exactly once:
    the number of pairs written plus the four skip counters is the number
    of entries. *)
Theorem every_entry_counted_once py doc es :
  db0_entries doc = Some es ->
  exists t,
    filter_main py doc = Wrote t
    /\ (List.length (out t) + skipped t + parsed_fail t + not_session_key t
        + not_conversation t)%nat = List.length es.
Proof.
  intro H. exists (tally_of py es).
  split; [now apply filter_main_entries|].
  apply tally_of_accounted.
Qed.

Lemma every_entry_counted_once_witness :
  exists t,
    filter_main py0 (doc_of [JObj entry_abc; JObj entry_two_lines; JNull] [])
    = Wrote t
    /\ (List.length (out t) + skipped t + parsed_fail t + not_session_key t
        + not_conversation t)%nat
       = List.length [JObj entry_abc; JObj entry_two_lines; JNull].
Proof.
  apply (every_entry_counted_once py0). reflexivity.
Defined.

(** X23.  The output array holds, in the order of the entries, the
    pair of each entry that yields one: at most one pair per entry. *)
Theorem output_follows_entry_order py doc es :
  db0_entries doc = Some es ->
  exists t,
    filter_main py doc = Wrote t
    /\ out t = flat_map (emitted py) es
    /\ (List.length (out t) <= List.length es)%nat.
Proof.
  intro H. exists (tally_of py es).
  split; [now apply filter_main_entries|].
  split; [apply tally_of_out|].
  rewrite <- (tally_of_accounted py es). unfold accounted. lia.
Qed.

Lemma output_follows_entry_order_witness :
  exists t,
    filter_main py0 (doc_of [JObj entry_two_lines; JObj entry_abc] []) = Wrote t
    /\ out t = flat_map (emitted py0) [JObj entry_two_lines; JObj entry_abc]
    /\ (List.length (out t)
        <= List.length [JObj entry_two_lines; JObj entry_abc])%nat.
Proof.
  apply (output_follows_entry_order py0). reflexivity.
Defined.



(** X25.  A document in which [db], [db["0"]] or
    [db["0"]["entries"]] is absent is filtered like one without entries:
    an empty array and all counters at zero, no error. *)
Theorem missing_path_gives_empty py doc :
  missing_path doc -> filter_main py doc = Wrote tally0.
Proof.
  intros (d & -> & [H|(db & Hdb & [H|(db0 & H0 & H)])]);
    unfold filter_main, get_default; cbn [bind].
  - now rewrite H.
  - rewrite Hdb. cbn [bind]. now rewrite H.
  - rewrite Hdb. cbn [bind]. rewrite H0. cbn [bind]. now rewrite H.
Qed.

Lemma missing_path_gives_empty_witness :
  filter_main py0 (JObj [(lit "meta", JObj [])]) = Wrote tally0.
Proof.
  apply (missing_path_gives_empty py0).
  exists [(lit "meta", JObj [])]. split; [reflexivity|]. now left.
Defined.

(** X26.  When [db["0"]["entries"]] is there but is not a list, the
    filter exits with the message "Unexpected input ... is not a list" and
    writes nothing. *)
Theorem entries_not_a_list py d db db0 v :
  dict_get d (lit "db") = Some (JObj db) ->
  dict_get db (lit "0") = Some (JObj db0) ->
  dict_get db0 (lit "entries") = Some v ->
  (forall l, v <> JArr l) ->
  filter_main py (JObj d) = Exited_with not_a_list_msg.
Proof.
  intros H1 H2 H3 Hv. unfold filter_main, get_default. cbn [bind].
  rewrite H1. cbn [bind]. rewrite H2. cbn [bind]. rewrite H3.
  destruct v; try reflexivity. exfalso. now apply (Hv l).
Qed.

Lemma entries_not_a_list_witness :
  filter_main py0
    (JObj [(lit "db", JObj [(lit "0", JObj [(lit "entries", JObj [])])])])
  = Exited_with not_a_list_msg.
Proof.
  apply (entries_not_a_list py0 _ [(lit "0", JObj [(lit "entries", JObj [])])]
           [(lit "entries", JObj [])] (JObj []));
    try reflexivity.
  discriminate.
Defined.

(** X27.  When the document, [db] or [db["0"]] is present but is not
    a mapping, the filter ends with an uncaught [AttributeError]: the
    defaults of [.get] cover absent keys only. *)
Theorem broken_path_crashes py doc :
  broken_path doc ->
  exists e, filter_main py doc = Crashed e /\ exn_class e = AttributeError.
Proof.
  intros [H|(d & -> & v & [[Hdb Hv]|(db & Hdb & H0 & Hv)])];
    unfold filter_main, get_default.
  - destruct doc; try (eexists; split; reflexivity).
    exfalso. now apply (H d).
  - cbn [bind]. rewrite Hdb.
    destruct v; try (eexists; split; reflexivity).
    exfalso. now apply (Hv d0).
  - cbn [bind]. rewrite Hdb. cbn [bind]. rewrite H0.
    destruct v; try (eexists; split; reflexivity).
    exfalso. now apply (Hv d0).
Qed.

Lemma broken_path_crashes_witness :
  exists e,
    filter_main py0 (JObj [(lit "db", JArr [])]) = Crashed e
    /\ exn_class e = AttributeError.
Proof.
  apply (broken_path_crashes py0). right.
  exists [(lit "db", JArr [])]. split; [reflexivity|].
  exists (JArr []). left. split; [reflexivity | discriminate].
Defined.

